(** * example.py: retrying a transaction on serialization failure

    A shallow embedding of [example.py] (psycopg 3 against CockroachDB) and
    the properties of its retry loop [run_transaction].

    The database connection is an external collaborator.  It is modelled as
    psycopg 3 behaves on a connection that is not in autocommit mode, the way
    [main] opens it:
    - the first statement executed while no transaction is in progress
      starts one, and nothing is stored before a commit;
    - [with conn.transaction()] begins a transaction when none is in
      progress and sets a savepoint in the current one otherwise; on a normal
      exit the transaction is committed or the savepoint released, on an exit
      by exception the transaction is rolled back, or rolled back to the
      savepoint;
    - [conn.rollback()] is refused with [ProgrammingError] while a
      [conn.transaction()] block is open.
    The [balance] column is [INT], a 64-bit integer: an [UPDATE] whose result
    does not fit is refused by the server.

    A Python float is represented by the rational number it denotes, and an
    operation on floats rounds its exact result to the nearest binary64
    number, ties to even ([fl]).  [time.sleep] and [logging.debug] only leave
    an event in the trace. *)

From Stdlib Require Import ZArith QArith Qround Qpower Qabs Qreduction.
From Stdlib Require Import Lia Lqa List String Ascii.
From Stdlib Require Import DecimalString SpecFloat.
From stdpp Require Import base gmap.
Import ListNotations.

Open Scope string_scope.
Open Scope list_scope.
Open Scope Z_scope.

(** ** Exceptions *)

(** The exception classes the program distinguishes.  [PsycopgError] stands
    for [psycopg.Error] and each of its subclasses other than
    [SerializationFailure]; the other classes are outside the psycopg
    hierarchy. *)
Inductive exn_class :=
| SerializationFailure
| PsycopgError
| RuntimeError
| ValueError
| TypeError
| IndexError
| OverflowError
| OtherException.

Record exn := mkExn { exn_cls : exn_class; exn_msg : string }.

(** [isinstance(e, SerializationFailure)] *)
Definition is_SerializationFailure (e : exn) : bool :=
  match exn_cls e with
  | SerializationFailure => true
  | _ => false
  end.

(** [isinstance(e, psycopg.Error)]: [SerializationFailure] is a subclass. *)
Definition is_psycopg_Error (e : exn) : bool :=
  match exn_cls e with
  | SerializationFailure | PsycopgError => true
  | _ => false
  end.

(** [isinstance(e, ValueError)] *)
Definition is_ValueError (e : exn) : bool :=
  match exn_cls e with
  | ValueError => true
  | _ => false
  end.

(** ** The session *)

(** Account identifiers are UUIDs, kept as their 128-bit integer. *)
Abbreviation uuid := N.

(** The [accounts] table: [id UUID PRIMARY KEY, balance INT]. *)
Abbreviation table := (gmap N Z).

(** A connection:
    - [accounts], the rows the session sees;
    - [open_tx], one entry for each [conn.transaction()] block that is
      open, innermost first: the rows the session saw when the block was
      entered, and whether the block began the transaction (no transaction
      was in progress) or set a savepoint in it;
    - [stored], the rows that are committed;
    - [in_transaction], whether a transaction is in progress. *)
Record connection := mkConn {
  accounts : table;
  open_tx : list (table * bool);
  stored : table;
  in_transaction : bool
}.

(** ** Observable events *)

Inductive debug_msg :=
| GotError (e : exn)                 (* "got error: %s" *)
| SerializationBranch                (* "EXECUTE SERIALIZATION_FAILURE BRANCH" *)
| NonSerializationBranch             (* "EXECUTE NON-SERIALIZATION_FAILURE BRANCH" *)
| Sleeping (seconds : Q)             (* "Sleeping %s seconds" *)
| RunTransactionFailed (e : exn).    (* "run_transaction(conn, op) failed: %s" *)

Inductive event :=
| TxBegin                  (* entering [with conn.transaction()] *)
| TxCommit                 (* leaving the block normally *)
| TxRollback               (* leaving the block with an exception *)
| Rollback                 (* a [conn.rollback()] that is carried out *)
| Invoke (i : nat)         (* [op(conn)], invocation number [i] (from 0) *)
| Sleep (seconds : Q)      (* [time.sleep(seconds)] *)
| Debug (m : debug_msg)    (* [logging.debug(...)] *)
| Balances (rows : table)  (* [print_balances(conn)] *)
| Fatal (e : exn).         (* [logging.fatal(e)] *)

(** ** The world and its monad *)

(** Everything the program can change: the connection, the number of times
    the unit of work was invoked, the global random generator (its future
    draws) and the trace of events so far, oldest first. *)
Record world := mkWorld {
  conn : connection;
  calls : nat;
  rng : nat -> Q;
  trace : list event
}.

Inductive result (A : Type) :=
| Ok (a : A)
| Raise (e : exn).
Arguments Ok {A} a.
Arguments Raise {A} e.

Definition M (A : Type) : Type := world -> result A * world.

Definition ret {A} (a : A) : M A := fun w => (Ok a, w).

Definition raise {A} (e : exn) : M A := fun w => (Raise e, w).

Definition bind {A B} (m : M A) (k : A -> M B) : M B :=
  fun w =>
    match m w with
    | (Ok a, w') => k a w'
    | (Raise e, w') => (Raise e, w')
    end.

(** [try: body except ... as e: handler e] *)
Definition try_except {A} (body : M A) (handler : exn -> M A) : M A :=
  fun w =>
    match body w with
    | (Ok a, w') => (Ok a, w')
    | (Raise e, w') => handler e w'
    end.

(** A computation that only returns or raises. *)
Definition lift {A} (r : result A) : M A := fun w => (r, w).

Declare Scope py_scope.
Delimit Scope py_scope with py.
Notation "x <- m ;; k" := (bind m (fun x => k))
  (at level 100, m at next level, right associativity) : py_scope.
Notation "m ;; k" := (bind m (fun _ => k))
  (at level 100, right associativity) : py_scope.
Open Scope py_scope.

Definition emit (e : event) : M unit :=
  fun w => (Ok tt, mkWorld (conn w) (calls w) (rng w) (trace w ++ [e])).

Definition get_conn : M connection := fun w => (Ok (conn w), w).

Definition set_conn (c : connection) : M unit :=
  fun w => (Ok tt, mkWorld c (calls w) (rng w) (trace w)).

(** [logging.debug] *)
Definition debug (m : debug_msg) : M unit := emit (Debug m).

(** [time.sleep] *)
Definition sleep (seconds : Q) : M unit := emit (Sleep seconds).

(** [random.random()]: the next draw of the global generator. *)
Definition random : M Q :=
  fun w => (Ok (rng w O),
            mkWorld (conn w) (calls w) (fun i => rng w (S i)) (trace w)).

(** ** Transaction demarcation *)

(** A statement is about to run: a transaction is started when none is in
    progress. *)
Definition start_query (c : connection) : connection :=
  mkConn (accounts c) (open_tx c) (stored c) true.

(** Entering [with conn.transaction()]: [BEGIN] when no transaction is in
    progress, [SAVEPOINT] otherwise. *)
Definition begin_tx (c : connection) : connection :=
  mkConn (accounts c)
    ((accounts c, negb (in_transaction c)) :: open_tx c)
    (stored c) true.

(** Leaving the block normally: [COMMIT] when the block began the
    transaction, [RELEASE SAVEPOINT] otherwise. *)
Definition commit_tx (c : connection) : connection :=
  match open_tx c with
  | [] => c
  | (_, true) :: outer => mkConn (accounts c) outer (accounts c) false
  | (_, false) :: outer =>
      mkConn (accounts c) outer (stored c) (in_transaction c)
  end.

(** Leaving the block with an exception: [ROLLBACK] when the block began
    the transaction, [ROLLBACK TO SAVEPOINT] otherwise.  The session sees
    the rows of the entry again. *)
Definition rollback_tx (c : connection) : connection :=
  match open_tx c with
  | [] => c
  | (saved, true) :: outer => mkConn saved outer (stored c) false
  | (saved, false) :: outer =>
      mkConn saved outer (stored c) (in_transaction c)
  end.

Definition rollback_forbidden : exn :=
  mkExn PsycopgError
    "Explicit rollback() forbidden within a Transaction context. (Either raise Rollback() or allow an exception to propagate out of the context.)".

(** [conn.rollback()]: refused while a [conn.transaction()] block is open;
    otherwise the transaction in progress, if any, is rolled back. *)
Definition rollback : M unit :=
  c <- get_conn ;;
  match open_tx c with
  | [] =>
      set_conn (mkConn (if in_transaction c then stored c else accounts c)
                  [] (stored c) false) ;;
      emit Rollback
  | _ :: _ => raise rollback_forbidden
  end.

(** [with conn.transaction(): body]: "leaving this block the transaction
    will commit or rollback (if leaving with an exception)". *)
Definition transaction {A} (body : M A) : M A :=
  c <- get_conn ;; set_conn (begin_tx c) ;; emit TxBegin ;;
  fun w =>
    match body w with
    | (Ok a, w') =>
        (c <- get_conn ;; set_conn (commit_tx c) ;; emit TxCommit ;; ret a) w'
    | (Raise e, w') =>
        (c <- get_conn ;; set_conn (rollback_tx c) ;; emit TxRollback ;;
         raise e) w'
    end.

(** ** The unit of work *)

(** A unit of work is a callable: [op i rows] is what its invocation number
    [i] (counted from 0) does on a session that sees [rows]: it returns or
    raises, and leaves the rows it has written. *)
Definition unit_of_work : Type := nat -> table -> result unit * table.

(** [op(conn)] *)
Definition invoke (op : unit_of_work) : M unit :=
  fun w =>
    let i := calls w in
    let c := conn w in
    let (r, rows) := op i (accounts c) in
    (r, mkWorld (mkConn rows (open_tx c) (stored c) (in_transaction c))
          (S i) (rng w) (trace w ++ [Invoke i])).

(** ** Python built-ins *)

(** [range(start, stop)] *)
Definition range (start stop : Z) : list Z :=
  map (fun i => start + Z.of_nat i) (seq 0 (Z.to_nat (stop - start))).

(** [str(n)] for an integer. *)
Definition str_int (n : Z) : string := NilZero.string_of_int (Z.to_int n).

(** ** Floats *)

(** [ilog2 x] is the integer [k] with [2^k <= x < 2^(k+1)], for [x > 0]. *)
Definition ilog2 (x : Q) : Z :=
  let k := Z.log2 (Qnum x) - Z.log2 (Zpos (Qden x)) in
  if Qle_bool (2 ^ k) x then k else k - 1.

(** The integer nearest to [q], the even one of the two when [q] is half
    way. *)
Definition rne (q : Q) : Z :=
  let f := Qfloor q in
  match Qcompare (q - inject_Z f) (1 # 2) with
  | Lt => f
  | Gt => f + 1
  | Eq => if Z.even f then f else f + 1
  end.

(** The binary64 number nearest to [x > 0]: 53 significant bits, and no
    digit below [2^-1074]. *)
Definition round_pos (x : Q) : Q :=
  let e := Z.max (ilog2 x - 52) (-1074) in
  (inject_Z (rne (x / 2 ^ e)) * 2 ^ e)%Q.

(** Rounding to binary64, to nearest, ties to even. *)
Definition fl (x : Q) : Q :=
  Qred match Qcompare x 0 with
       | Eq => 0%Q
       | Gt => round_pos x
       | Lt => (- round_pos (- x))%Q
       end.

(** [a + b] and [a * b] on floats. *)
Definition fadd (a b : Q) : Q := fl (a + b).
Definition fmul (a b : Q) : Q := fl (a * b).

(** The literals [0.1] and [0.5]. *)
Definition f0_1 : Q := fl (1 # 10).
Definition f0_5 : Q := fl (1 # 2).

Definition int_too_large : exn :=
  mkExn OverflowError "int too large to convert to float".

(** The conversion of an integer operand to float: [OverflowError] when
    the nearest float would be [2^1024] or beyond. *)
Definition float_of_int (n : Z) : result Q :=
  let x := fl (inject_Z n) in
  if Qle_bool (2 ^ 1024) (Qabs x) then Raise int_too_large else Ok x.

(** The same arithmetic on the specification floats of the standard
    library, to compare values at given operands. *)
Module Binary64.

Definition prec : Z := 53.
Definition emax : Z := 1024.

Definition add : spec_float -> spec_float -> spec_float := SFadd prec emax.
Definition mul : spec_float -> spec_float -> spec_float := SFmul prec emax.

(** [float(n)] for an integer. *)
Definition of_int (n : Z) : spec_float := binary_normalize prec emax n 0 false.

(** The literals [0.1] and [0.5], the draw [0.75], and the largest draw
    [1 - 2**-53] of [random.random()]. *)
Definition f0_1 : spec_float := S754_finite false 7205759403792794 (-56).
Definition f0_5 : spec_float := S754_finite false 4503599627370496 (-53).
Definition f0_75 : spec_float := S754_finite false 6755399441055744 (-53).
Definition largest_draw : spec_float :=
  S754_finite false 9007199254740991 (-53).

Definition sleep_seconds (retry : Z) (r : spec_float) : spec_float :=
  mul (mul (of_int (2 ^ retry)) f0_1) (add r f0_5).

(** The rational a finite float denotes. *)
Definition to_Q (x : spec_float) : Q :=
  match x with
  | S754_finite s m e =>
      ((if s then - inject_Z (Zpos m) else inject_Z (Zpos m)) * 2 ^ e)%Q
  | _ => 0%Q
  end.

End Binary64.

(** ** [run_transaction] *)

(** [(2**retry) * 0.1], the left operand of the product that gives the
    delay; [retry] is a value of the loop, at least 1. *)
Definition backoff_base (retry : Z) : result Q :=
  match float_of_int (2 ^ retry) with
  | Ok x => Ok (fmul x f0_1)
  | Raise e => Raise e
  end.

(** [(2**retry) * 0.1 * (random.random() + 0.5)], for the draw [r]. *)
Definition sleep_seconds (retry : Z) (r : Q) : result Q :=
  match backoff_base retry with
  | Ok base => Ok (fmul base (fadd r f0_5))
  | Raise e => Raise e
  end.

(** How one pass through the body of the [for] loop ends when it does not
    raise: by the [return], or by reaching the end of the body. *)
Inductive flow := Returned | Next.

(** The [try] statement inside the loop, at loop value [retry].  In the
    product that gives the delay the left operand is evaluated before
    [random.random()] is called. *)
Definition attempt (op : unit_of_work) (retry : Z) : M flow :=
  try_except
    (invoke op ;; ret Returned)
    (fun e =>
       if is_SerializationFailure e then
         debug (GotError e) ;;
         rollback ;;
         debug SerializationBranch ;;
         base <- lift (backoff_base retry) ;;
         r <- random ;;
         let sleep_seconds := fmul base (fadd r f0_5) in
         debug (Sleeping sleep_seconds) ;;
         sleep sleep_seconds ;;
         ret Next
       else if is_psycopg_Error e then
         debug (GotError e) ;;
         debug NonSerializationBranch ;;
         raise e
       else raise e).

(** [for retry in rs: ...] *)
Fixpoint for_retry (op : unit_of_work) (rs : list Z) : M flow :=
  match rs with
  | [] => ret Next
  | retry :: rest =>
      f <- attempt op retry ;;
      match f with
      | Returned => ret Returned
      | Next => for_retry op rest
      end
  end.

Definition retries_exhausted (max_retries : Z) : exn :=
  mkExn ValueError
    ("transaction did not succeed after " ++ str_int max_retries ++ " retries")%string.

Definition run_transaction (op : unit_of_work) (max_retries : Z) : M unit :=
  transaction
    (f <- for_retry op (range 1 (max_retries + 1)) ;;
     match f with
     | Returned => ret tt
     | Next => raise (retries_exhausted max_retries)
     end).

(** [run_transaction(conn, op)]: [max_retries=3]. *)
Definition run_transaction_default (op : unit_of_work) : M unit :=
  run_transaction op 3.

(** ** The sample workload *)

(** [cur.execute] of a statement that rewrites the table. *)
Definition execute (f : table -> table) : M unit :=
  c <- get_conn ;;
  set_conn (mkConn (f (accounts c)) (open_tx c) (stored c) true).

(** [create_accounts(conn)], for the two identifiers [uuid.uuid4()] returns:
    [UPSERT INTO accounts (id, balance) VALUES (id1, 1000), (id2, 250)]. *)
Definition create_accounts (id1 id2 : uuid) : M (list uuid) :=
  execute (fun rows => rows) ;;
  execute (fun rows => <[id2 := 250]> (<[id1 := 1000]> rows)) ;;
  ret [id1; id2].

(** [delete_accounts(conn)]: [DELETE FROM accounts]. *)
Definition delete_accounts : M unit := execute (fun _ => ∅).

(** [print_balances(conn)]: [SELECT id, balance FROM accounts]. *)
Definition print_balances : M unit :=
  c <- get_conn ;; set_conn (start_query c) ;; emit (Balances (accounts c)).

Definition hex_digit (d : N) : ascii :=
  nth (N.to_nat d) (list_ascii_of_string "0123456789abcdef") "0"%char.

(** ['%0<digits>x' % n] *)
Fixpoint hex_fixed (digits : nat) (n : N) (acc : string) : string :=
  match digits with
  | O => acc
  | S d => hex_fixed d (n / 16)%N (String (hex_digit (n mod 16)%N) acc)
  end.

(** [str(u)] for a UUID: 8-4-4-4-12 hexadecimal digits. *)
Definition str_uuid (u : uuid) : string :=
  let hex := hex_fixed 32 u "" in
  (substring 0 8 hex ++ "-" ++ substring 8 4 hex ++ "-" ++
   substring 12 4 hex ++ "-" ++ substring 16 4 hex ++ "-" ++
   substring 20 12 hex)%string.

Definition insufficient_funds (frm : uuid) (from_balance amount : Z) : exn :=
  mkExn RuntimeError
    ("insufficient funds in " ++ str_uuid frm ++ ": have " ++
     str_int from_balance ++ ", need " ++ str_int amount)%string.

(** The values of the [INT] column: 64-bit integers. *)
Definition int8_min : Z := - 2 ^ 63.
Definition int8_max : Z := 2 ^ 63 - 1.

Definition fits_int8 (z : Z) : bool := (int8_min <=? z) && (z <=? int8_max).

(** The error of the server for a result that does not fit the column
    ([psycopg.errors.NumericValueOutOfRange]). *)
Definition integer_out_of_range : exn :=
  mkExn PsycopgError "integer out of range".

(** [UPDATE accounts SET balance = f(balance) WHERE id = id]: a statement
    that matches no row changes nothing; a new balance that does not fit
    the column is refused. *)
Definition update_balance (f : Z -> Z) (id : uuid) (rows : table)
  : result unit * table :=
  match rows !! id with
  | None => (Ok tt, rows)
  | Some balance =>
      if fits_int8 (f balance) then (Ok tt, <[id := f balance]> rows)
      else (Raise integer_out_of_range, rows)
  end.

(** [transfer_funds(conn, frm, to, amount)], on the rows the session sees,
    on a server that serves this session alone.  [cur.fetchone()] is [None]
    when no row has the identifier [frm], and subscripting it raises
    [TypeError]. *)
Definition transfer_funds (frm to : uuid) (amount : Z) (rows : table)
  : result unit * table :=
  match rows !! frm with
  | None =>
      (Raise (mkExn TypeError "'NoneType' object is not subscriptable"), rows)
  | Some from_balance =>
      if (from_balance <? amount)%Z then
        (Raise (insufficient_funds frm from_balance amount), rows)
      else
        match update_balance (fun balance => balance - amount) frm rows with
        | (Ok _, rows1) =>
            update_balance (fun balance => balance + amount) to rows1
        | (Raise e, rows1) => (Raise e, rows1)
        end
  end.

(** [l.pop()] *)
Definition pop {A} (l : list A) : M (A * list A) :=
  match rev l with
  | [] => raise (mkExn IndexError "pop from empty list")
  | x :: r => ret (x, rev r)
  end.

(** [main()], from [create_accounts] on, for a connection that is
    established; [id1] and [id2] are the identifiers [uuid.uuid4()]
    returns. *)
Definition main (id1 id2 : uuid) : M unit :=
  try_except
    (ids <- create_accounts id1 id2 ;;
     print_balances ;;
     let amount := 100 in
     p <- pop ids ;;
     let toId := fst p in
     p <- pop (snd p) ;;
     let fromId := fst p in
     try_except
       (run_transaction_default
          (fun _ => transfer_funds fromId toId amount))
       (fun e =>
          if is_ValueError e then debug (RunTransactionFailed e) ;; ret tt
          else if is_psycopg_Error e then debug (GotError e) ;; raise e
          else raise e) ;;
     print_balances ;;
     delete_accounts)
    (fun e =>
       emit (Fatal (mkExn OtherException "database connection failed")) ;;
       emit (Fatal e) ;;
       ret tt).

(** ** Reading a trace *)

(** An event without its payload. *)
Inductive kind :=
| KBegin | KCommit | KAbort | KRollback | KInvoke | KSleep | KDebug
| KBalances | KFatal.

Definition kind_of (e : event) : kind :=
  match e with
  | TxBegin => KBegin
  | TxCommit => KCommit
  | TxRollback => KAbort
  | Rollback => KRollback
  | Invoke _ => KInvoke
  | Sleep _ => KSleep
  | Debug _ => KDebug
  | Balances _ => KBalances
  | Fatal _ => KFatal
  end.

Scheme Equality for kind.

(** How many times [k] occurs in a list of kinds, and how many events of
    kind [k] a trace holds. *)
Definition occurrences (k : kind) (ks : list kind) : nat :=
  length (List.filter (kind_beq k) ks).

Definition count (k : kind) (tr : list event) : nat :=
  occurrences k (map kind_of tr).


(** The event that leaves the block, by the way the body ended. *)
Definition exit_event {A} (r : result A) : event :=
  match r with
  | Ok _ => TxCommit
  | Raise _ => TxRollback
  end.

(** An event with every duration replaced by zero. *)
Definition untimed (e : event) : event :=
  match e with
  | Sleep _ => Sleep 0
  | Debug (Sleeping _) => Debug (Sleeping 0)
  | _ => e
  end.

(** The same world with another random generator. *)
Definition with_rng (w : world) (g : nat -> Q) : world :=
  mkWorld (conn w) (calls w) g (trace w).

(** The rows shown by the last [print_balances] of a trace. *)
Fixpoint last_balances (tr : list event) (acc : option table) : option table :=
  match tr with
  | [] => acc
  | Balances rows :: rest => last_balances rest (Some rows)
  | _ :: rest => last_balances rest acc
  end.

(** ** Failure patterns of a unit of work *)

(** Invocation number [i] raises a serialization failure, whatever rows it
    runs on. *)
Definition conflicts_at (op : unit_of_work) (i : nat) : Prop :=
  forall rows, exists e,
    fst (op i rows) = Raise e /\ is_SerializationFailure e = true.

(** Invocation number [i] returns, whatever rows it runs on. *)
Definition succeeds_at (op : unit_of_work) (i : nat) : Prop :=
  forall rows, fst (op i rows) = Ok tt.

(** The world once the transaction block is entered, and once it is left. *)
Definition entered (w : world) : world :=
  mkWorld (begin_tx (conn w)) (calls w) (rng w) (trace w ++ [TxBegin]).

Definition committed (w : world) : world :=
  mkWorld (commit_tx (conn w)) (calls w) (rng w) (trace w ++ [TxCommit]).

Definition aborted (w : world) : world :=
  mkWorld (rollback_tx (conn w)) (calls w) (rng w) (trace w ++ [TxRollback]).

(** Sample inputs. *)
Definition idle_world : world :=
  mkWorld (mkConn ∅ [] ∅ false) 0 (fun _ => 0%Q) [].

Definition restart_transaction : exn :=
  mkExn SerializationFailure "restart transaction".

(** A unit of work that meets a serialization failure on its first [k]
    invocations and returns afterwards. *)
Definition flaky (k : nat) : unit_of_work :=
  fun i rows =>
    if (i <? k)%nat then (Raise restart_transaction, rows) else (Ok tt, rows).

(** A unit of work that meets a serialization failure every time. *)
Definition contended : unit_of_work :=
  fun _ rows => (Raise restart_transaction, rows).

(** A unit of work that always raises [e]. *)
Definition failing (e : exn) : unit_of_work := fun _ rows => (Raise e, rows).

Definition connection_lost : exn :=
  mkExn PsycopgError "server closed the connection unexpectedly".

(** Two worlds that differ at most in the random generator and in the
    durations their traces record. *)
Definition same_but_timing (w1 w2 : world) : Prop :=
  conn w1 = conn w2 /\
  calls w1 = calls w2 /\
  map untimed (trace w1) = map untimed (trace w2).

(** A session, with no transaction in progress, whose account 1 holds 50
    and whose account 2 holds 7. *)
Definition poor_world : world :=
  mkWorld (mkConn (<[2%N := 7]> (<[1%N := 50]> ∅)) []
             (<[2%N := 7]> (<[1%N := 50]> ∅)) false)
    0 (fun _ => 0%Q) [].

(** ** Measures of a table *)

(** The sum of all balances of a table. *)
Definition total (rows : table) : Z :=
  map_fold (fun _ balance acc => balance + acc) 0 rows.

(** A unit of work that writes [rows'] and then raises [e]. *)
Definition writes_then_raises (rows' : table) (e : exn) : unit_of_work :=
  fun _ _ => (Raise e, rows').


(** The world inside the block after the first invocation, which left the
    rows [rows], and after the events [extra] of the handler. *)
Definition after_first (w : world) (rows : table) (extra : list event)
  : world :=
  mkWorld (mkConn rows (open_tx (begin_tx (conn w))) (stored (conn w)) true)
    (S (calls w)) (rng w)
    (trace w ++ [TxBegin; Invoke (calls w)] ++ extra).

(** * Properties *)

(** ** Rounding *)

Section Rounding.

Local Open Scope Q_scope.

Lemma pow2_pos (k : Z) : 0 < 2 ^ k.
Proof. apply Qpower_0_lt. reflexivity. Qed.

Lemma pow2_inject (k : Z) : (0 <= k)%Z -> inject_Z (2 ^ k) == 2 ^ k.
Proof. intros H. apply (Zpower_Qpower 2 k H). Qed.

Lemma pow2_sub (a b : Z) : 2 ^ (a - b) == 2 ^ a / 2 ^ b.
Proof. apply Qpower_minus. discriminate. Qed.

Lemma pow2_le (a b : Z) : (a <= b)%Z -> 2 ^ a <= 2 ^ b.
Proof. intros H. apply Qpower_le_compat_l; [exact H|discriminate]. Qed.

Lemma pow2_lt_inv (a b : Z) : 2 ^ a < 2 ^ b -> (a < b)%Z.
Proof. intros H. apply (Qpower_lt_compat_l_inv 2); [exact H|reflexivity]. Qed.

(** [ilog2] is the integer part of the binary logarithm. *)
Lemma ilog2_spec (x : Q) :
  0 < x -> 2 ^ ilog2 x <= x /\ x < 2 ^ (ilog2 x + 1).
Proof.
  intros Hx. unfold ilog2.
  set (n := Qnum x). set (d := Zpos (Qden x)).
  set (a := Z.log2 n). set (b := Z.log2 d).
  assert (Hn : (0 < n)%Z).
  { unfold n. destruct x as [xn xd]. unfold Qlt in Hx. cbn in *. lia. }
  assert (Hd : (0 < d)%Z) by (unfold d; lia).
  destruct (Z.log2_spec n Hn) as [Hn1 Hn2]. fold a in Hn1, Hn2.
  destruct (Z.log2_spec d Hd) as [Hd1 Hd2]. fold b in Hd1, Hd2.
  assert (Ha : (0 <= a)%Z) by apply Z.log2_nonneg.
  assert (Hb : (0 <= b)%Z) by apply Z.log2_nonneg.
  assert (Hxd : x * inject_Z d == inject_Z n).
  { destruct x as [xn xd]. unfold n, d, Qeq, Qmult, inject_Z. cbn. lia. }
  assert (Hup : x < 2 ^ (a - b + 1)).
  { replace (a - b + 1)%Z with ((a + 1) - b)%Z by lia. rewrite pow2_sub.
    apply Qlt_shift_div_l; [apply pow2_pos|].
    apply Qle_lt_trans with (x * inject_Z d).
    - apply Qmult_le_l; [exact Hx|].
      rewrite <- pow2_inject by exact Hb. rewrite <- Zle_Qle. exact Hd1.
    - rewrite Hxd. rewrite <- pow2_inject by lia. rewrite <- Zlt_Qlt. exact Hn2. }
  assert (Hlow : 2 ^ (a - b - 1) <= x).
  { replace (a - b - 1)%Z with (a - (b + 1))%Z by lia. rewrite pow2_sub.
    apply Qle_shift_div_r; [apply pow2_pos|].
    apply Qle_trans with (x * inject_Z d).
    - rewrite Hxd. rewrite <- pow2_inject by exact Ha. rewrite <- Zle_Qle. exact Hn1.
    - apply Qmult_le_l; [exact Hx|].
      rewrite <- pow2_inject by lia. rewrite <- Zle_Qle. lia. }
  destruct (Qle_bool (2 ^ (a - b)) x) eqn:Htest.
  - apply Qle_bool_iff in Htest. split; assumption.
  - assert (Hlt : x < 2 ^ (a - b)).
    { apply Qnot_le_lt. intros H. apply Qle_bool_iff in H. congruence. }
    replace (a - b - 1 + 1)%Z with (a - b)%Z by lia. split; assumption.
Qed.

Lemma ilog2_mono (x y : Q) : 0 < x -> x <= y -> (ilog2 x <= ilog2 y)%Z.
Proof.
  intros Hx Hxy.
  assert (Hy : 0 < y) by (apply Qlt_le_trans with x; assumption).
  destruct (ilog2_spec x Hx) as [H1 _]. destruct (ilog2_spec y Hy) as [_ H2].
  assert (H : 2 ^ ilog2 x < 2 ^ (ilog2 y + 1)).
  { apply Qle_lt_trans with x; [exact H1|].
    apply Qle_lt_trans with y; assumption. }
  apply pow2_lt_inv in H. lia.
Qed.

Lemma ilog2_unique (x : Q) (k : Z) :
  2 ^ k <= x -> x < 2 ^ (k + 1) -> ilog2 x = k.
Proof.
  intros H1 H2.
  assert (Hx : 0 < x) by (apply Qlt_le_trans with (2 ^ k); [apply pow2_pos|exact H1]).
  destruct (ilog2_spec x Hx) as [H3 H4].
  assert (Ha : 2 ^ k < 2 ^ (ilog2 x + 1)) by (apply Qle_lt_trans with x; assumption).
  assert (Hb : 2 ^ ilog2 x < 2 ^ (k + 1)) by (apply Qle_lt_trans with x; assumption).
  apply pow2_lt_inv in Ha, Hb. lia.
Qed.

Lemma rne_bounds (q : Q) : (Qfloor q <= rne q <= Qfloor q + 1)%Z.
Proof.
  unfold rne. destruct (Qcompare _ _); [destruct (Z.even _)| |]; lia.
Qed.

Lemma rne_mono (q1 q2 : Q) : q1 <= q2 -> (rne q1 <= rne q2)%Z.
Proof.
  intros H. pose proof (Qfloor_resp_le q1 q2 H) as Hf.
  pose proof (rne_bounds q1) as B1. pose proof (rne_bounds q2) as B2.
  destruct (Z.eq_dec (Qfloor q1) (Qfloor q2)) as [E|NE]; [|lia].
  unfold rne in *. rewrite <- E in *.
  set (f := Qfloor q1) in *.
  destruct (Qcompare_spec (q1 - inject_Z f) (1 # 2)) as [E1|L1|G1];
    destruct (Qcompare_spec (q2 - inject_Z f) (1 # 2)) as [E2|L2|G2];
    try (destruct (Z.even f); lia); try lia; exfalso; lra.
Qed.

Lemma rne_Z (n : Z) : rne (inject_Z n) = n.
Proof.
  unfold rne. rewrite Qfloor_Z.
  assert (E : inject_Z n - inject_Z n == 0) by ring.
  destruct (Qcompare_spec (inject_Z n - inject_Z n) (1 # 2)) as [H|H|H].
  - rewrite E in H. discriminate H.
  - reflexivity.
  - rewrite E in H. discriminate H.
Qed.

Lemma rne_ge (n : Z) (q : Q) : inject_Z n <= q -> (n <= rne q)%Z.
Proof. intros H. rewrite <- (rne_Z n). apply rne_mono. exact H. Qed.

Lemma rne_le (n : Z) (q : Q) : q <= inject_Z n -> (rne q <= n)%Z.
Proof. intros H. rewrite <- (rne_Z n). apply rne_mono. exact H. Qed.

(** Rounding keeps the order. *)
Lemma round_pos_mono (x y : Q) :
  0 < x -> x <= y -> round_pos x <= round_pos y.
Proof.
  intros Hx Hxy.
  assert (Hy : 0 < y) by (apply Qlt_le_trans with x; assumption).
  unfold round_pos.
  set (ex := Z.max (ilog2 x - 52) (-1074)).
  set (ey := Z.max (ilog2 y - 52) (-1074)).
  pose proof (ilog2_mono x y Hx Hxy) as Hlog.
  assert (Hexy : (ex <= ey)%Z) by (unfold ex, ey; lia).
  destruct (Z.eq_dec ex ey) as [E|NE].
  - rewrite <- E. apply Qmult_le_compat_r; [|apply Qlt_le_weak, pow2_pos].
    rewrite <- Zle_Qle. apply rne_mono.
    apply Qmult_le_compat_r; [exact Hxy|].
    apply Qlt_le_weak, Qinv_lt_0_compat, pow2_pos.
  - assert (Hlt : (ex + 1 <= ey)%Z) by lia.
    assert (Hey : ey = (ilog2 y - 52)%Z) by (unfold ex, ey in *; lia).
    destruct (ilog2_spec x Hx) as [_ Hx2]. destruct (ilog2_spec y Hy) as [Hy1 _].
    apply Qle_trans with (inject_Z (2 ^ 53) * 2 ^ ex).
    + apply Qmult_le_compat_r; [|apply Qlt_le_weak, pow2_pos].
      rewrite <- Zle_Qle. apply rne_le.
      apply Qle_shift_div_r; [apply pow2_pos|].
      rewrite pow2_inject by lia. rewrite <- Qpower_plus by discriminate.
      apply Qlt_le_weak. apply Qlt_le_trans with (2 ^ (ilog2 x + 1)); [exact Hx2|].
      apply pow2_le. unfold ex. lia.
    + apply Qle_trans with (inject_Z (2 ^ 52) * 2 ^ ey).
      * rewrite !pow2_inject by lia. rewrite <- !Qpower_plus by discriminate.
        apply pow2_le. lia.
      * apply Qmult_le_compat_r; [|apply Qlt_le_weak, pow2_pos].
        rewrite <- Zle_Qle. apply rne_ge.
        apply Qle_shift_div_l; [apply pow2_pos|].
        rewrite pow2_inject by lia. rewrite <- Qpower_plus by discriminate.
        apply Qle_trans with (2 ^ ilog2 y); [|exact Hy1].
        apply pow2_le. lia.
Qed.

Lemma round_pos_nonneg (x : Q) : 0 <= x -> 0 <= round_pos x.
Proof.
  intros Hx. unfold round_pos.
  apply Qmult_le_0_compat; [|apply Qlt_le_weak, pow2_pos].
  change 0 with (inject_Z 0). rewrite <- Zle_Qle. apply rne_ge.
  apply Qle_shift_div_l; [apply pow2_pos|].
  change (inject_Z 0) with 0. rewrite Qmult_0_l. exact Hx.
Qed.

Lemma fl_mono (x y : Q) : 0 <= x -> x <= y -> fl x <= fl y.
Proof.
  intros Hx Hxy. unfold fl. rewrite !Qred_correct.
  destruct (Qcompare_spec x 0) as [Ex|Lx|Gx].
  - destruct (Qcompare_spec y 0) as [Ey|Ly|Gy].
    + apply Qle_refl.
    + exfalso. lra.
    + apply round_pos_nonneg. apply Qlt_le_weak. exact Gy.
  - exfalso. lra.
  - assert (Gy : 0 < y) by lra.
    destruct (Qcompare_spec y 0) as [Ey|Ly|_].
    + exfalso. lra.
    + exfalso. lra.
    + apply round_pos_mono; assumption.
Qed.

Lemma fl_nonneg (x : Q) : 0 <= x -> 0 <= fl x.
Proof.
  intros Hx. change 0 with (fl 0) at 1. apply fl_mono; [apply Qle_refl|exact Hx].
Qed.

(** A power of two, from 1 on, is a float. *)
Lemma fl_pow2 (k : Z) : (0 <= k)%Z -> fl (inject_Z (2 ^ k)) == inject_Z (2 ^ k).
Proof.
  intros Hk. set (x := inject_Z (2 ^ k)).
  assert (Ex : x == 2 ^ k) by (apply pow2_inject; exact Hk).
  assert (Hx : 0 < x) by (rewrite Ex; apply pow2_pos).
  unfold fl. rewrite Qred_correct.
  destruct (Qcompare_spec x 0) as [E|L|_]; [exfalso; lra|exfalso; lra|].
  unfold round_pos.
  assert (Hlog : ilog2 x = k).
  { apply ilog2_unique.
    - rewrite Ex. apply Qle_refl.
    - rewrite Ex. apply Qpower_lt_compat_l; [lia|reflexivity]. }
  rewrite Hlog. replace (Z.max (k - 52) (-1074)) with (k - 52)%Z by lia.
  assert (Eq : x / 2 ^ (k - 52) == inject_Z (2 ^ 52)).
  { rewrite Ex, pow2_sub. rewrite <- (pow2_inject 52) by lia.
    field. split; [discriminate|].
    intros H. pose proof (pow2_pos k) as P. rewrite H in P.
    exact (Qlt_irrefl 0 P). }
  assert (Hr : rne (x / 2 ^ (k - 52)) = (2 ^ 52)%Z).
  { apply Z.le_antisymm.
    - apply rne_le. rewrite Eq. apply Qle_refl.
    - apply rne_ge. rewrite Eq. apply Qle_refl. }
  rewrite Hr, Ex, pow2_sub. rewrite <- (pow2_inject 52) by lia.
  field. discriminate.
Qed.

End Rounding.

(** ** One pass through the loop body *)

Section Attempt.

Variable op : unit_of_work.

Lemma attempt_returns retry w rows :
  op (calls w) (accounts (conn w)) = (Ok tt, rows) ->
  attempt op retry w =
    (Ok Returned,
     mkWorld (mkConn rows (open_tx (conn w)) (stored (conn w))
                (in_transaction (conn w)))
       (S (calls w)) (rng w) (trace w ++ [Invoke (calls w)])).
Proof.
  intros Hop. unfold attempt, try_except, bind, invoke, ret.
  rewrite Hop. reflexivity.
Qed.

(** Inside a [conn.transaction()] block the handler of a serialization
    failure ends at [conn.rollback()], with the error of that call. *)
Lemma attempt_conflict_refused retry w e rows :
  op (calls w) (accounts (conn w)) = (Raise e, rows) ->
  is_SerializationFailure e = true ->
  open_tx (conn w) <> [] ->
  attempt op retry w =
    (Raise rollback_forbidden,
     mkWorld (mkConn rows (open_tx (conn w)) (stored (conn w))
                (in_transaction (conn w)))
       (S (calls w)) (rng w)
       (trace w ++ [Invoke (calls w); Debug (GotError e)])).
Proof.
  intros Hop Hsf Hopen.
  unfold attempt, try_except, bind, invoke, ret, rollback, get_conn, debug,
    emit, raise.
  rewrite Hop, Hsf. cbn.
  destruct (open_tx (conn w)) as [|b outer]; [congruence|].
  rewrite <- app_assoc. reflexivity.
Qed.

Lemma attempt_database_error retry w e rows :
  op (calls w) (accounts (conn w)) = (Raise e, rows) ->
  is_SerializationFailure e = false ->
  is_psycopg_Error e = true ->
  attempt op retry w =
    (Raise e,
     mkWorld (mkConn rows (open_tx (conn w)) (stored (conn w))
                (in_transaction (conn w)))
       (S (calls w)) (rng w)
       (trace w ++
        [Invoke (calls w); Debug (GotError e); Debug NonSerializationBranch])).
Proof.
  intros Hop Hsf Hdb. unfold attempt, try_except, bind, invoke, ret.
  rewrite Hop, Hsf, Hdb. cbn. repeat rewrite <- app_assoc. reflexivity.
Qed.

Lemma attempt_other_error retry w e rows :
  op (calls w) (accounts (conn w)) = (Raise e, rows) ->
  is_psycopg_Error e = false ->
  attempt op retry w =
    (Raise e,
     mkWorld (mkConn rows (open_tx (conn w)) (stored (conn w))
                (in_transaction (conn w)))
       (S (calls w)) (rng w) (trace w ++ [Invoke (calls w)])).
Proof.
  intros Hop Hdb. unfold attempt, try_except, bind, invoke, ret.
  rewrite Hop.
  assert (Hsf : is_SerializationFailure e = false).
  { unfold is_SerializationFailure, is_psycopg_Error in *.
    destruct (exn_cls e); congruence. }
  rewrite Hsf, Hdb. reflexivity.
Qed.

End Attempt.

(** ** Counting and ranges *)

Lemma occurrences_app k ks1 ks2 :
  occurrences k (ks1 ++ ks2) = (occurrences k ks1 + occurrences k ks2)%nat.
Proof. unfold occurrences. rewrite List.filter_app, length_app. reflexivity. Qed.

Lemma count_app k tr1 tr2 :
  count k (tr1 ++ tr2) = (count k tr1 + count k tr2)%nat.
Proof. unfold count. rewrite map_app. apply occurrences_app. Qed.

Lemma range_empty start stop : stop <= start -> range start stop = [].
Proof.
  intros H. unfold range.
  replace (Z.to_nat (stop - start)) with O by lia. reflexivity.
Qed.

Lemma range_cons start stop :
  start < stop -> range start stop = start :: range (start + 1) stop.
Proof.
  intros H. unfold range.
  replace (Z.to_nat (stop - start)) with (S (Z.to_nat (stop - (start + 1))))
    by lia.
  cbn [seq map]. f_equal; [lia|].
  rewrite <- seq_shift, map_map. apply map_ext. intros i. lia.
Qed.

(** The loop value of pass number [i] (from 0) is [start + i]. *)
Lemma range_nth start stop (i : nat) :
  start + Z.of_nat i < stop ->
  nth_error (range start stop) i = Some (start + Z.of_nat i).
Proof.
  intros H. unfold range.
  rewrite nth_error_map, nth_error_seq.
  destruct (Nat.ltb_spec i (Z.to_nat (stop - start))) as [_|Hge]; [|lia].
  reflexivity.
Qed.

(** ** The transaction block *)

Lemma transaction_returns {A} (body : M A) w a w' :
  body (entered w) = (Ok a, w') ->
  transaction body w = (Ok a, committed w').
Proof.
  intros H. unfold transaction, bind, get_conn, set_conn, emit. cbn.
  fold (entered w). rewrite H. reflexivity.
Qed.

Lemma transaction_raises {A} (body : M A) w e w' :
  body (entered w) = (Raise e, w') ->
  transaction body w = (Raise e, aborted w').
Proof.
  intros H. unfold transaction, bind, get_conn, set_conn, emit. cbn.
  fold (entered w). rewrite H. reflexivity.
Qed.

(** The session once the block is left, by the way it is left. *)
Lemma committed_after_first w rows extra :
  committed (after_first w rows extra) =
    mkWorld
      (mkConn rows (open_tx (conn w))
         (if in_transaction (conn w) then stored (conn w) else rows)
         (in_transaction (conn w)))
      (S (calls w)) (rng w)
      (trace w ++ [TxBegin; Invoke (calls w)] ++ extra ++ [TxCommit]).
Proof.
  unfold committed, after_first, commit_tx, begin_tx.
  cbn [conn calls rng trace accounts open_tx stored in_transaction].
  rewrite <- !app_assoc.
  destruct (in_transaction (conn w)); reflexivity.
Qed.

Lemma aborted_after_first w rows extra :
  aborted (after_first w rows extra) =
    mkWorld
      (mkConn (accounts (conn w)) (open_tx (conn w)) (stored (conn w))
         (in_transaction (conn w)))
      (S (calls w)) (rng w)
      (trace w ++ [TxBegin; Invoke (calls w)] ++ extra ++ [TxRollback]).
Proof.
  unfold aborted, after_first, rollback_tx, begin_tx.
  cbn [conn calls rng trace accounts open_tx stored in_transaction].
  rewrite <- !app_assoc.
  destruct (in_transaction (conn w)); reflexivity.
Qed.

Lemma aborted_entered w :
  aborted (entered w) =
    mkWorld
      (mkConn (accounts (conn w)) (open_tx (conn w)) (stored (conn w))
         (in_transaction (conn w)))
      (calls w) (rng w) (trace w ++ [TxBegin; TxRollback]).
Proof.
  unfold aborted, entered, rollback_tx, begin_tx.
  cbn [conn calls rng trace accounts open_tx stored in_transaction].
  rewrite <- !app_assoc.
  destruct (in_transaction (conn w)); reflexivity.
Qed.

(** ** The first pass decides the call *)

Lemma first_attempt (op : unit_of_work) (max_retries : Z) :
  1 <= max_retries ->
  for_retry op (range 1 (max_retries + 1)) =
    (f <- attempt op 1 ;;
     match f with
     | Returned => ret Returned
     | Next => for_retry op (range (1 + 1) (max_retries + 1))
     end).
Proof. intros H. rewrite range_cons by lia. reflexivity. Qed.

Section FirstPass.

Variable op : unit_of_work.
Variable max_retries : Z.
Variable w : world.
Hypothesis Hpos : 1 <= max_retries.

Lemma run_transaction_returns rows :
  op (calls w) (accounts (conn w)) = (Ok tt, rows) ->
  run_transaction op max_retries w =
    (Ok tt, committed (after_first w rows [])).
Proof.
  intros Hop.
  pose proof (attempt_returns op 1 (entered w) rows Hop) as Hat.
  unfold run_transaction. apply transaction_returns.
  rewrite (first_attempt op max_retries Hpos).
  unfold bind at 1. unfold bind at 1. rewrite Hat.
  unfold after_first, entered. cbn. rewrite <- !app_assoc. reflexivity.
Qed.

Lemma run_transaction_conflict e rows :
  op (calls w) (accounts (conn w)) = (Raise e, rows) ->
  is_SerializationFailure e = true ->
  run_transaction op max_retries w =
    (Raise rollback_forbidden,
     aborted (after_first w rows [Debug (GotError e)])).
Proof.
  intros Hop Hsf.
  assert (Hopen : open_tx (conn (entered w)) <> []) by discriminate.
  pose proof (attempt_conflict_refused op 1 (entered w) e rows Hop Hsf Hopen)
    as Hat.
  unfold run_transaction. apply transaction_raises.
  rewrite (first_attempt op max_retries Hpos).
  unfold bind at 1. unfold bind at 1. rewrite Hat.
  unfold after_first, entered. cbn. rewrite <- !app_assoc. reflexivity.
Qed.

Lemma run_transaction_database_error e rows :
  op (calls w) (accounts (conn w)) = (Raise e, rows) ->
  is_SerializationFailure e = false ->
  is_psycopg_Error e = true ->
  run_transaction op max_retries w =
    (Raise e,
     aborted (after_first w rows
                [Debug (GotError e); Debug NonSerializationBranch])).
Proof.
  intros Hop Hsf Hdb.
  pose proof (attempt_database_error op 1 (entered w) e rows Hop Hsf Hdb)
    as Hat.
  unfold run_transaction. apply transaction_raises.
  rewrite (first_attempt op max_retries Hpos).
  unfold bind at 1. unfold bind at 1. rewrite Hat.
  unfold after_first, entered. cbn. rewrite <- !app_assoc. reflexivity.
Qed.

Lemma run_transaction_other_error e rows :
  op (calls w) (accounts (conn w)) = (Raise e, rows) ->
  is_psycopg_Error e = false ->
  run_transaction op max_retries w =
    (Raise e, aborted (after_first w rows [])).
Proof.
  intros Hop Hdb.
  pose proof (attempt_other_error op 1 (entered w) e rows Hop Hdb) as Hat.
  unfold run_transaction. apply transaction_raises.
  rewrite (first_attempt op max_retries Hpos).
  unfold bind at 1. unfold bind at 1. rewrite Hat.
  unfold after_first, entered. cbn. rewrite <- !app_assoc. reflexivity.
Qed.

End FirstPass.

Lemma run_transaction_no_pass (op : unit_of_work) (max_retries : Z) w :
  max_retries <= 0 ->
  run_transaction op max_retries w =
    (Raise (retries_exhausted max_retries), aborted (entered w)).
Proof.
  intros Hle. unfold run_transaction. apply transaction_raises.
  rewrite range_empty by lia. reflexivity.
Qed.

(** ** A serialization failure ends the call *)

(** The first invocation meets a serialization failure: the handler logs
    the error and calls [conn.rollback()], which psycopg refuses inside the
    [conn.transaction()] block.  That error leaves the handler, the loop and
    the block; nothing is retried. *)
Lemma run_transaction_first_conflict
  (op : unit_of_work) (max_retries : Z) (w : world) :
  1 <= max_retries ->
  conflicts_at op (calls w) ->
  exists e delta,
    is_SerializationFailure e = true /\
    fst (op (calls w) (accounts (conn w))) = Raise e /\
    delta = [TxBegin; Invoke (calls w); Debug (GotError e); TxRollback] /\
    run_transaction op max_retries w =
      (Raise rollback_forbidden,
       mkWorld
         (mkConn (accounts (conn w)) (open_tx (conn w)) (stored (conn w))
            (in_transaction (conn w)))
         (S (calls w)) (rng w) (trace w ++ delta)).
Proof.
  intros Hpos Hconf.
  destruct (Hconf (accounts (conn w))) as (e & He & Hsf).
  destruct (op (calls w) (accounts (conn w))) as [r rows] eqn:Hop.
  cbn [fst] in He. subst r.
  exists e. eexists. split; [exact Hsf|]. split; [reflexivity|].
  split; [reflexivity|].
  rewrite (run_transaction_conflict op max_retries w Hpos e rows Hop Hsf).
  rewrite aborted_after_first. reflexivity.
Qed.

(** C1.  A unit of work that returns on its first invocation makes
    [run_transaction] return after that one invocation, without a sleep
    (the case [k = 0]).  A unit of work that meets a serialization failure
    on its first [k >= 1] invocations and would return on the next one is
    not invoked again: the handler's [conn.rollback()] is refused inside the
    [conn.transaction()] block, and [run_transaction] raises that error
    after one invocation, no rollback carried out and no sleep, with the
    session as it was before the call. *)
Theorem run_transaction_conflict_not_retried
  (op : unit_of_work) (max_retries : Z) (w : world) (k : nat) :
  Z.of_nat k < max_retries ->
  (forall i, (i < k)%nat -> conflicts_at op (calls w + i)) ->
  succeeds_at op (calls w + k) ->
  (k = O ->
   exists w',
     run_transaction op max_retries w = (Ok tt, w') /\
     trace w' = trace w ++ [TxBegin; Invoke (calls w); TxCommit] /\
     calls w' = S (calls w)) /\
  ((1 <= k)%nat ->
   exists e w' delta,
     is_SerializationFailure e = true /\
     run_transaction op max_retries w = (Raise rollback_forbidden, w') /\
     trace w' = trace w ++ delta /\
     delta = [TxBegin; Invoke (calls w); Debug (GotError e); TxRollback] /\
     calls w' = S (calls w) /\
     count KInvoke delta = 1%nat /\
     count KRollback delta = 0%nat /\
     count KSleep delta = 0%nat /\
     count KCommit delta = 0%nat /\
     accounts (conn w') = accounts (conn w) /\
     stored (conn w') = stored (conn w)).
Proof.
  intros Hk Hconf Hsucc. split.
  - intros ->. rewrite Nat.add_0_r in Hsucc.
    pose proof (Hsucc (accounts (conn w))) as Hop.
    destruct (op (calls w) (accounts (conn w))) as [r rows] eqn:Eop.
    cbn [fst] in Hop. subst r.
    eexists. split.
    { apply (run_transaction_returns op max_retries w); [lia|exact Eop]. }
    rewrite committed_after_first. cbn. split; reflexivity.
  - intros Hk1.
    assert (Hfirst : conflicts_at op (calls w)).
    { specialize (Hconf O). rewrite Nat.add_0_r in Hconf. apply Hconf. lia. }
    destruct (run_transaction_first_conflict op max_retries w) as
      (e & delta & Hsf & _ & Hdelta & Hrun); [lia|exact Hfirst|].
    exists e. eexists. exists delta.
    split; [exact Hsf|]. split; [exact Hrun|].
    cbn [trace calls conn accounts stored].
    split; [reflexivity|]. split; [exact Hdelta|]. split; [reflexivity|].
    subst delta. repeat split; reflexivity.
Qed.

Lemma run_transaction_conflict_not_retried_witness :
  (1%nat = O ->
   exists w',
     run_transaction (flaky 1) 3 idle_world = (Ok tt, w') /\
     trace w' =
       trace idle_world ++ [TxBegin; Invoke (calls idle_world); TxCommit] /\
     calls w' = S (calls idle_world)) /\
  ((1 <= 1)%nat ->
   exists e w' delta,
     is_SerializationFailure e = true /\
     run_transaction (flaky 1) 3 idle_world = (Raise rollback_forbidden, w') /\
     trace w' = trace idle_world ++ delta /\
     delta =
       [TxBegin; Invoke (calls idle_world); Debug (GotError e); TxRollback] /\
     calls w' = S (calls idle_world) /\
     count KInvoke delta = 1%nat /\
     count KRollback delta = 0%nat /\
     count KSleep delta = 0%nat /\
     count KCommit delta = 0%nat /\
     accounts (conn w') = accounts (conn idle_world) /\
     stored (conn w') = stored (conn idle_world)).
Proof.
  apply (run_transaction_conflict_not_retried (flaky 1) 3 idle_world 1).
  - lia.
  - intros i Hi rows. exists restart_transaction.
    assert (i = O) as -> by lia. split; reflexivity.
  - intros rows. reflexivity.
Defined.

(** C2.  A unit of work that meets a serialization failure on every
    invocation is invoked once, whatever the bound [max_retries >= 1] is:
    [run_transaction] raises the error of the refused [conn.rollback()], a
    [psycopg.Error], and not the retries-exhausted [ValueError]. *)
Theorem run_transaction_conflicts_never_exhaust_retries
  (op : unit_of_work) (max_retries : Z) (w : world) :
  1 <= max_retries ->
  (forall i, conflicts_at op i) ->
  exists w',
    run_transaction op max_retries w = (Raise rollback_forbidden, w') /\
    calls w' = S (calls w) /\
    count KInvoke (trace w') = S (count KInvoke (trace w)) /\
    rollback_forbidden <> retries_exhausted max_retries /\
    is_ValueError rollback_forbidden = false /\
    is_psycopg_Error rollback_forbidden = true /\
    is_SerializationFailure rollback_forbidden = false.
Proof.
  intros Hpos Hconf.
  destruct (run_transaction_first_conflict op max_retries w Hpos
              (Hconf (calls w))) as (e & delta & Hsf & _ & Hdelta & Hrun).
  eexists. split; [exact Hrun|].
  cbn [trace calls]. split; [reflexivity|]. split.
  { subst delta. rewrite count_app. cbn. lia. }
  split; [discriminate|]. repeat split; reflexivity.
Qed.

Lemma run_transaction_conflicts_never_exhaust_retries_witness :
  exists w',
    run_transaction contended 3 idle_world = (Raise rollback_forbidden, w') /\
    calls w' = S (calls idle_world) /\
    count KInvoke (trace w') = S (count KInvoke (trace idle_world)) /\
    rollback_forbidden <> retries_exhausted 3 /\
    is_ValueError rollback_forbidden = false /\
    is_psycopg_Error rollback_forbidden = true /\
    is_SerializationFailure rollback_forbidden = false.
Proof.
  apply (run_transaction_conflicts_never_exhaust_retries contended 3
           idle_world).
  - lia.
  - intros i rows. exists restart_transaction. split; reflexivity.
Defined.

(** C9.  When every invocation meets a serialization failure, no
    [conn.rollback()] is carried out and nothing sleeps, neither after the
    first failure nor after a last one: the call ends in the handler of the
    first failure, before the generator is drawn from, and the only events
    are the entry into the block, one invocation, the log of the error and
    the exit from the block. *)
Theorem run_transaction_conflict_never_sleeps
  (op : unit_of_work) (max_retries : Z) (w : world) :
  1 <= max_retries ->
  (forall i, conflicts_at op i) ->
  exists e w' delta,
    run_transaction op max_retries w = (Raise rollback_forbidden, w') /\
    trace w' = trace w ++ delta /\
    delta = [TxBegin; Invoke (calls w); Debug (GotError e); TxRollback] /\
    count KSleep delta = 0%nat /\
    count KRollback delta = 0%nat /\
    Z.of_nat (count KSleep delta) <> max_retries /\
    rng w' = rng w.
Proof.
  intros Hpos Hconf.
  destruct (run_transaction_first_conflict op max_retries w Hpos
              (Hconf (calls w))) as (e & delta & Hsf & _ & Hdelta & Hrun).
  exists e. eexists. exists delta.
  split; [exact Hrun|]. cbn [trace rng].
  split; [reflexivity|]. split; [exact Hdelta|].
  subst delta. repeat split; try reflexivity.
  cbn. lia.
Qed.

Lemma run_transaction_conflict_never_sleeps_witness :
  exists e w' delta,
    run_transaction contended 3 idle_world = (Raise rollback_forbidden, w') /\
    trace w' = trace idle_world ++ delta /\
    delta =
      [TxBegin; Invoke (calls idle_world); Debug (GotError e); TxRollback] /\
    count KSleep delta = 0%nat /\
    count KRollback delta = 0%nat /\
    Z.of_nat (count KSleep delta) <> 3 /\
    rng w' = rng idle_world.
Proof.
  apply (run_transaction_conflict_never_sleeps contended 3 idle_world).
  - lia.
  - intros i rows. exists restart_transaction. split; reflexivity.
Defined.

(** ** An empty loop *)

(** C10.  With [max_retries = 0] the range of the loop is empty: the unit
    of work is not invoked, nothing sleeps, and the block is left at once
    with the retries-exhausted error, whose message says 0 retries. *)
Theorem run_transaction_zero_retries (op : unit_of_work) (w : world) :
  run_transaction op 0 w = (Raise (retries_exhausted 0), aborted (entered w)) /\
  trace (aborted (entered w)) = trace w ++ [TxBegin; TxRollback] /\
  calls (aborted (entered w)) = calls w /\
  accounts (conn (aborted (entered w))) = accounts (conn w) /\
  open_tx (conn (aborted (entered w))) = open_tx (conn w) /\
  count KInvoke [TxBegin; TxRollback] = O /\
  count KSleep [TxBegin; TxRollback] = O /\
  retries_exhausted 0 =
    mkExn ValueError "transaction did not succeed after 0 retries".
Proof.
  split; [reflexivity|]. rewrite aborted_entered.
  repeat split; reflexivity.
Qed.

(** ** Errors that are not retried *)

(** C4.  When the first invocation raises a database error that is not a
    serialization failure, [run_transaction] raises that same error: the
    unit of work was invoked once, nothing slept, no [conn.rollback()] was
    issued, and the block was left through its rollback. *)
Theorem run_transaction_propagates_database_error
  (op : unit_of_work) (max_retries : Z) (w : world) (e : exn) :
  1 <= max_retries ->
  fst (op (calls w) (accounts (conn w))) = Raise e ->
  is_psycopg_Error e = true ->
  is_SerializationFailure e = false ->
  exists w' delta,
    run_transaction op max_retries w = (Raise e, w') /\
    trace w' = trace w ++ delta /\
    delta =
      [TxBegin; Invoke (calls w); Debug (GotError e);
       Debug NonSerializationBranch; TxRollback] /\
    calls w' = S (calls w) /\
    count KInvoke delta = 1%nat /\
    count KSleep delta = 0%nat /\
    count KRollback delta = 0%nat.
Proof.
  intros Hpos Hop Hdb Hsf.
  destruct (op (calls w) (accounts (conn w))) as [r rows] eqn:Eop.
  cbn in Hop. subst r.
  eexists. eexists. split; [|split; [|split; [reflexivity|]]].
  - apply (run_transaction_database_error op max_retries w Hpos e rows);
      assumption.
  - rewrite aborted_after_first. reflexivity.
  - rewrite aborted_after_first. repeat split; reflexivity.
Qed.

Lemma run_transaction_propagates_database_error_witness :
  exists w' delta,
    run_transaction (failing connection_lost) 3 idle_world =
      (Raise connection_lost, w') /\
    trace w' = trace idle_world ++ delta /\
    delta =
      [TxBegin; Invoke (calls idle_world); Debug (GotError connection_lost);
       Debug NonSerializationBranch; TxRollback] /\
    calls w' = S (calls idle_world) /\
    count KInvoke delta = 1%nat /\
    count KSleep delta = 0%nat /\
    count KRollback delta = 0%nat.
Proof.
  apply (run_transaction_propagates_database_error
           (failing connection_lost) 3 idle_world connection_lost).
  - lia.
  - reflexivity.
  - reflexivity.
  - reflexivity.
Defined.

(** C5.  When the first invocation raises an error that is no
    [psycopg.Error] (a business error, such as the insufficient-funds error
    of [transfer_funds]), neither handler of [run_transaction] runs: nothing
    is logged, nothing sleeps, no [conn.rollback()] is issued.  The same
    error leaves the block after that one invocation, whatever the bound
    [max_retries] is. *)
Theorem run_transaction_propagates_business_error
  (op : unit_of_work) (max_retries : Z) (w : world) (e : exn) :
  1 <= max_retries ->
  fst (op (calls w) (accounts (conn w))) = Raise e ->
  is_psycopg_Error e = false ->
  exists w' delta,
    run_transaction op max_retries w = (Raise e, w') /\
    trace w' = trace w ++ delta /\
    delta = [TxBegin; Invoke (calls w); TxRollback] /\
    calls w' = S (calls w) /\
    count KInvoke delta = 1%nat /\
    count KSleep delta = 0%nat /\
    count KRollback delta = 0%nat /\
    count KDebug delta = 0%nat /\
    (forall frm from_balance amount,
       is_psycopg_Error (insufficient_funds frm from_balance amount) = false).
Proof.
  intros Hpos Hop Hdb.
  destruct (op (calls w) (accounts (conn w))) as [r rows] eqn:Eop.
  cbn in Hop. subst r.
  eexists. eexists. split; [|split; [|split; [reflexivity|]]].
  - apply (run_transaction_other_error op max_retries w Hpos e rows);
      assumption.
  - rewrite aborted_after_first. reflexivity.
  - rewrite aborted_after_first. repeat split; reflexivity.
Qed.

Lemma run_transaction_propagates_business_error_witness :
  exists w' delta,
    run_transaction (failing (insufficient_funds 1 50 100)) 3 idle_world =
      (Raise (insufficient_funds 1 50 100), w') /\
    trace w' = trace idle_world ++ delta /\
    delta = [TxBegin; Invoke (calls idle_world); TxRollback] /\
    calls w' = S (calls idle_world) /\
    count KInvoke delta = 1%nat /\
    count KSleep delta = 0%nat /\
    count KRollback delta = 0%nat /\
    count KDebug delta = 0%nat /\
    (forall frm from_balance amount,
       is_psycopg_Error (insufficient_funds frm from_balance amount) = false).
Proof.
  apply (run_transaction_propagates_business_error
           (failing (insufficient_funds 1 50 100)) 3 idle_world
           (insufficient_funds 1 50 100)).
  - lia.
  - reflexivity.
  - reflexivity.
Defined.

(** ** The backoff *)

Lemma f0_5_exact : f0_5 = (1 # 2)%Q.
Proof. vm_compute. reflexivity. Qed.

Lemma fl_half : fl (1 # 2) = (1 # 2)%Q.
Proof. vm_compute. reflexivity. Qed.

Lemma fl_three_halves : fl (3 # 2) = (3 # 2)%Q.
Proof. vm_compute. reflexivity. Qed.

Lemma f0_1_nonneg : (0 <= f0_1)%Q.
Proof. apply fl_nonneg. discriminate. Qed.

(** The jitter factor [random.random() + 0.5] lies between 0.5 and 1.5,
    both included: a draw just below 1 rounds up to 1.5. *)
Lemma jitter_range (r : Q) :
  (0 <= r)%Q -> (r < 1)%Q ->
  (1 # 2 <= fadd r f0_5)%Q /\ (fadd r f0_5 <= 3 # 2)%Q.
Proof.
  intros H0 H1. unfold fadd. rewrite f0_5_exact. split.
  - rewrite <- fl_half at 1. apply fl_mono; [discriminate|lra].
  - rewrite <- fl_three_halves. apply fl_mono; lra.
Qed.

(** [2**retry] converts to float without rounding up to retry 1023. *)
Lemma float_of_int_pow2 (retry : Z) :
  0 <= retry <= 1023 ->
  float_of_int (2 ^ retry) = Ok (fl (inject_Z (2 ^ retry))).
Proof.
  intros Hr. unfold float_of_int.
  destruct (Qle_bool (2 ^ 1024) (Qabs (fl (inject_Z (2 ^ retry))))) eqn:E;
    [exfalso|reflexivity].
  apply Qle_bool_iff in E.
  rewrite fl_pow2 in E by lia.
  rewrite pow2_inject in E by lia.
  rewrite Qabs_pos in E by (apply Qlt_le_weak, pow2_pos).
  assert (H : (2 ^ retry < 2 ^ 1024)%Q).
  { apply Qpower_lt_compat_l; [lia|reflexivity]. }
  apply (Qlt_irrefl (2 ^ retry)). apply Qlt_le_trans with (2 ^ 1024)%Q; assumption.
Qed.

(** From retry 1024 on the conversion raises [OverflowError]. *)
Lemma float_of_int_pow2_overflow (retry : Z) :
  1024 <= retry -> float_of_int (2 ^ retry) = Raise int_too_large.
Proof.
  intros Hr. unfold float_of_int.
  destruct (Qle_bool (2 ^ 1024) (Qabs (fl (inject_Z (2 ^ retry))))) eqn:E;
    [reflexivity|exfalso].
  assert (H : (2 ^ 1024 <= Qabs (fl (inject_Z (2 ^ retry))))%Q).
  { rewrite fl_pow2 by lia. rewrite pow2_inject by lia.
    rewrite Qabs_pos by (apply Qlt_le_weak, pow2_pos).
    apply pow2_le. exact Hr. }
  apply Qle_bool_iff in H. congruence.
Qed.

Lemma backoff_base_nonneg (retry : Z) (base : Q) :
  0 <= retry -> backoff_base retry = Ok base -> (0 <= base)%Q.
Proof.
  intros Hr. unfold backoff_base, float_of_int.
  destruct (Qle_bool _ _); [discriminate|].
  intros H. injection H as <-. unfold fmul. apply fl_nonneg.
  apply Qmult_le_0_compat; [|apply f0_1_nonneg].
  rewrite fl_pow2 by exact Hr. rewrite pow2_inject by exact Hr.
  apply Qlt_le_weak, pow2_pos.
Qed.

(** Where [conn.rollback()] is carried out (no [conn.transaction()] block
    is open), the handler of a serialization failure sleeps for the delay
    of the loop value and the next draw, and the loop goes on. *)
Lemma attempt_conflict_sleeps
  (op : unit_of_work) (retry : Z) (w : world) (e : exn) (rows : table)
  (seconds : Q) :
  op (calls w) (accounts (conn w)) = (Raise e, rows) ->
  is_SerializationFailure e = true ->
  open_tx (conn w) = [] ->
  sleep_seconds retry (rng w O) = Ok seconds ->
  exists w',
    attempt op retry w = (Ok Next, w') /\
    trace w' =
      trace w ++
      [Invoke (calls w); Debug (GotError e); Rollback;
       Debug SerializationBranch; Debug (Sleeping seconds); Sleep seconds].
Proof.
  intros Hop Hsf Hopen Hs.
  unfold sleep_seconds in Hs.
  unfold attempt, try_except, bind, invoke, ret, rollback, get_conn, set_conn,
    debug, sleep, emit, raise, lift, random.
  rewrite Hop, Hsf. cbn. rewrite Hopen. cbn.
  destruct (backoff_base retry) as [base|e']; [|discriminate Hs].
  injection Hs as <-. cbn. eexists. split; [reflexivity|].
  cbn. rewrite <- !app_assoc. reflexivity.
Qed.

(** C3, as the code computes it.  For a loop value [attempt] between 1
    and [max_retries] (up to 1023, where [2**attempt] still converts to
    float) and a draw in [[0, 1)], the delay of line 95 is the product, in
    binary64, of [2**attempt * 0.1] and the jitter factor [draw + 0.5].
    The factor lies in [[0.5, 1.5]], so the delay lies between
    [2**attempt * 0.1 * 0.5] and [2**attempt * 0.1 * 1.5], both included;
    the handler, where its [conn.rollback()] is carried out, sleeps for
    that delay. *)
Theorem backoff_delay_bounds (max_retries attempt_no : Z) (r : Q) :
  1 <= attempt_no <= max_retries ->
  attempt_no <= 1023 ->
  (0 <= r)%Q -> (r < 1)%Q ->
  nth_error (range 1 (max_retries + 1)) (Z.to_nat (attempt_no - 1)) =
    Some attempt_no /\
  (fl (inject_Z (2 ^ attempt_no)) == inject_Z (2 ^ attempt_no))%Q /\
  exists base,
    backoff_base attempt_no = Ok base /\
    base = fmul (fl (inject_Z (2 ^ attempt_no))) f0_1 /\
    sleep_seconds attempt_no r = Ok (fmul base (fadd r f0_5)) /\
    (1 # 2 <= fadd r f0_5)%Q /\ (fadd r f0_5 <= 3 # 2)%Q /\
    (fmul base (1 # 2) <= fmul base (fadd r f0_5))%Q /\
    (fmul base (fadd r f0_5) <= fmul base (3 # 2))%Q /\
    (forall (op : unit_of_work) (w : world) (e : exn) (rows : table),
       op (calls w) (accounts (conn w)) = (Raise e, rows) ->
       is_SerializationFailure e = true ->
       open_tx (conn w) = [] ->
       rng w O = r ->
       exists w',
         attempt op attempt_no w = (Ok Next, w') /\
         trace w' =
           trace w ++
           [Invoke (calls w); Debug (GotError e); Rollback;
            Debug SerializationBranch;
            Debug (Sleeping (fmul base (fadd r f0_5)));
            Sleep (fmul base (fadd r f0_5))]).
Proof.
  intros Hrange Hmax H0 H1.
  split.
  { rewrite range_nth by lia. f_equal. lia. }
  split; [apply fl_pow2; lia|].
  assert (Hbase : backoff_base attempt_no =
                    Ok (fmul (fl (inject_Z (2 ^ attempt_no))) f0_1)).
  { unfold backoff_base. rewrite float_of_int_pow2 by lia. reflexivity. }
  assert (Hsleep : sleep_seconds attempt_no r =
                     Ok (fmul (fmul (fl (inject_Z (2 ^ attempt_no))) f0_1)
                           (fadd r f0_5))).
  { unfold sleep_seconds. rewrite Hbase. reflexivity. }
  eexists. split; [exact Hbase|]. split; [reflexivity|].
  set (base := fmul (fl (inject_Z (2 ^ attempt_no))) f0_1) in *.
  assert (Hb : (0 <= base)%Q).
  { apply (backoff_base_nonneg attempt_no); [lia|exact Hbase]. }
  destruct (jitter_range r H0 H1) as [Hlo Hhi].
  split; [exact Hsleep|]. split; [exact Hlo|]. split; [exact Hhi|].
  split; [|split].
  - unfold fmul at 1 2. apply fl_mono.
    + apply Qmult_le_0_compat; [exact Hb|discriminate].
    + rewrite !(Qmult_comm base). apply Qmult_le_compat_r; assumption.
  - unfold fmul at 1 2. apply fl_mono.
    + apply Qmult_le_0_compat; [exact Hb|].
      apply Qle_trans with (1 # 2)%Q; [discriminate|exact Hlo].
    + rewrite !(Qmult_comm base). apply Qmult_le_compat_r; assumption.
  - intros op w e rows Hop Hsf Hopen Hr.
    apply (attempt_conflict_sleeps op attempt_no w e rows); try assumption.
    rewrite Hr. exact Hsleep.
Qed.

Lemma backoff_delay_bounds_witness :
  nth_error (range 1 (3 + 1)) (Z.to_nat (2 - 1)) = Some 2 /\
  (fl (inject_Z (2 ^ 2)) == inject_Z (2 ^ 2))%Q /\
  exists base,
    backoff_base 2 = Ok base /\
    base = fmul (fl (inject_Z (2 ^ 2))) f0_1 /\
    sleep_seconds 2 (1 # 4) = Ok (fmul base (fadd (1 # 4) f0_5)) /\
    (1 # 2 <= fadd (1 # 4) f0_5)%Q /\ (fadd (1 # 4) f0_5 <= 3 # 2)%Q /\
    (fmul base (1 # 2) <= fmul base (fadd (1 # 4) f0_5))%Q /\
    (fmul base (fadd (1 # 4) f0_5) <= fmul base (3 # 2))%Q /\
    (forall (op : unit_of_work) (w : world) (e : exn) (rows : table),
       op (calls w) (accounts (conn w)) = (Raise e, rows) ->
       is_SerializationFailure e = true ->
       open_tx (conn w) = [] ->
       rng w O = (1 # 4)%Q ->
       exists w',
         attempt op 2 w = (Ok Next, w') /\
         trace w' =
           trace w ++
           [Invoke (calls w); Debug (GotError e); Rollback;
            Debug SerializationBranch;
            Debug (Sleeping (fmul base (fadd (1 # 4) f0_5)));
            Sleep (fmul base (fadd (1 # 4) f0_5))]).
Proof.
  apply (backoff_delay_bounds 3 2 (1 # 4)).
  - lia.
  - lia.
  - discriminate.
  - reflexivity.
Defined.

(** The bound [2**attempt * 0.1 * 1.0] does not hold: at attempt 1 the
    draw 0.75 gives a delay of 0.25 seconds, above [2 * 0.1 * 1.0], and the
    largest draw, [1 - 2**-53], gives [2 * 0.1 * 1.5], the upper end of the
    interval.  The specification floats of the standard library give the
    same delay. *)
Lemma backoff_delay_exceeds_unit_jitter :
  exists base,
    backoff_base 1 = Ok base /\
    (0 <= 3 # 4)%Q /\ (3 # 4 < 1)%Q /\
    sleep_seconds 1 (3 # 4) = Ok (1 # 4)%Q /\
    ~ (1 # 4 < fmul base 1)%Q /\
    (Binary64.to_Q (Binary64.sleep_seconds 1 Binary64.f0_75) == 1 # 4)%Q /\
    (Binary64.to_Q Binary64.largest_draw < 1)%Q /\
    sleep_seconds 1 (Binary64.to_Q Binary64.largest_draw) =
      Ok (fmul base (3 # 2)) /\
    (Binary64.to_Q
       (Binary64.sleep_seconds 1 Binary64.largest_draw) == fmul base (3 # 2))%Q.
Proof.
  eexists. split; [vm_compute; reflexivity|].
  split; [discriminate|]. split; [reflexivity|].
  split; [vm_compute; reflexivity|].
  split; [vm_compute; discriminate|].
  split; [vm_compute; reflexivity|].
  split; [vm_compute; reflexivity|].
  split; [vm_compute; reflexivity|].
  vm_compute. reflexivity.
Qed.

(** ** The transaction block around the loop *)



(** ** The jitter does not steer the loop *)

Section Jitter.

Variable op : unit_of_work.

Lemma attempt_same_but_timing retry w1 w2 :
  same_but_timing w1 w2 ->
  fst (attempt op retry w1) = fst (attempt op retry w2) /\
  same_but_timing (snd (attempt op retry w1)) (snd (attempt op retry w2)).
Proof.
  intros (Hc & Hn & Ht).
  unfold attempt, try_except, bind, invoke, ret, rollback, get_conn, set_conn,
    debug, sleep, emit, raise, lift, random.
  rewrite Hc, Hn.
  destruct (op (calls w2) (accounts (conn w2))) as [[[]|e] rows].
  - cbn. split; [reflexivity|]. unfold same_but_timing. cbn.
    rewrite !map_app, Ht. auto.
  - destruct (is_SerializationFailure e).
    + cbn. destruct (open_tx (conn w2)) as [|b outer].
      * cbn. destruct (backoff_base retry) as [base|e'].
        -- cbn. split; [reflexivity|]. unfold same_but_timing. cbn.
           rewrite !map_app, Ht. auto.
        -- cbn. split; [reflexivity|]. unfold same_but_timing. cbn.
           rewrite !map_app, Ht. auto.
      * cbn. split; [reflexivity|]. unfold same_but_timing. cbn.
        rewrite !map_app, Ht. auto.
    + destruct (is_psycopg_Error e).
      * cbn. split; [reflexivity|]. unfold same_but_timing. cbn.
        rewrite !map_app, Ht. auto.
      * cbn. split; [reflexivity|]. unfold same_but_timing. cbn.
        rewrite !map_app, Ht. auto.
Qed.

Lemma for_retry_same_but_timing rs w1 w2 :
  same_but_timing w1 w2 ->
  fst (for_retry op rs w1) = fst (for_retry op rs w2) /\
  same_but_timing (snd (for_retry op rs w1)) (snd (for_retry op rs w2)).
Proof.
  revert w1 w2. induction rs as [|retry rs IH]; intros w1 w2 Hw.
  - cbn. auto.
  - destruct (attempt_same_but_timing retry w1 w2 Hw) as [Hr Hs].
    cbn [for_retry]. unfold bind.
    destruct (attempt op retry w1) as [r1 w1'].
    destruct (attempt op retry w2) as [r2 w2'].
    cbn in Hr, Hs. subst r2.
    destruct r1 as [[|]|e]; cbn; auto.
Qed.

End Jitter.

Lemma transaction_same_but_timing {A} (body : M A) w1 w2 :
  fst (body (entered w1)) = fst (body (entered w2)) /\
  same_but_timing (snd (body (entered w1))) (snd (body (entered w2))) ->
  fst (transaction body w1) = fst (transaction body w2) /\
  same_but_timing (snd (transaction body w1)) (snd (transaction body w2)).
Proof.
  destruct (body (entered w1)) as [r1 w1'] eqn:E1.
  destruct (body (entered w2)) as [r2 w2'] eqn:E2.
  intros H. cbn [fst snd] in H. destruct H as (Hr & Hc & Hn & Ht). subst r2.
  destruct r1 as [a|e].
  - rewrite (transaction_returns body w1 a w1' E1).
    rewrite (transaction_returns body w2 a w2' E2).
    unfold same_but_timing. cbn. rewrite !map_app, Ht, Hc, Hn. auto.
  - rewrite (transaction_raises body w1 e w1' E1).
    rewrite (transaction_raises body w2 e w2' E2).
    unfold same_but_timing. cbn. rewrite !map_app, Ht, Hc, Hn. auto.
Qed.

(** C8.  Two runs of [run_transaction] on the same unit of work, with the
    same bound, from worlds that differ only in the random generator, end
    the same way: the same result, the same number of invocations, the same
    connection, and the same trace once the durations are erased (so the
    same invocations, rollbacks and sleeps in the same order).  The draws
    show in the durations only. *)
Theorem jitter_only_changes_durations
  (op : unit_of_work) (max_retries : Z) (w : world) (g1 g2 : nat -> Q) :
  let run1 := run_transaction op max_retries (with_rng w g1) in
  let run2 := run_transaction op max_retries (with_rng w g2) in
  fst run1 = fst run2 /\
  calls (snd run1) = calls (snd run2) /\
  conn (snd run1) = conn (snd run2) /\
  map untimed (trace (snd run1)) = map untimed (trace (snd run2)) /\
  map kind_of (trace (snd run1)) = map kind_of (trace (snd run2)) /\
  count KInvoke (trace (snd run1)) = count KInvoke (trace (snd run2)) /\
  count KRollback (trace (snd run1)) = count KRollback (trace (snd run2)).
Proof.
  intros run1 run2.
  assert (Hstart : same_but_timing (entered (with_rng w g1))
                                   (entered (with_rng w g2))).
  { unfold same_but_timing. cbn. auto. }
  destruct (for_retry_same_but_timing op (range 1 (max_retries + 1)) _ _ Hstart)
    as [Hr Hs].
  assert (Hmain : fst run1 = fst run2 /\ same_but_timing (snd run1) (snd run2)).
  { subst run1 run2. unfold run_transaction.
    apply transaction_same_but_timing. unfold bind.
    destruct (for_retry op (range 1 (max_retries + 1)) (entered (with_rng w g1)))
      as [r1 w1].
    destruct (for_retry op (range 1 (max_retries + 1)) (entered (with_rng w g2)))
      as [r2 w2].
    cbn in Hr, Hs. subst r2.
    destruct r1 as [[|]|e]; cbn; auto. }
  destruct Hmain as (Hres & Hc & Hn & Ht).
  assert (Hk : map kind_of (trace (snd run1)) = map kind_of (trace (snd run2))).
  { assert (Hun : forall tr, map kind_of tr = map kind_of (map untimed tr)).
    { intros tr. rewrite map_map. apply map_ext.
      intros [| | | | | | [] | |]; reflexivity. }
    rewrite (Hun (trace (snd run1))), (Hun (trace (snd run2))), Ht.
    reflexivity. }
  repeat split; try assumption; unfold count; rewrite Hk; reflexivity.
Qed.

(** ** The transfer *)

Lemma fits_int8_spec (z : Z) :
  fits_int8 z = true <-> int8_min <= z <= int8_max.
Proof. unfold fits_int8. rewrite andb_true_iff, !Z.leb_le. reflexivity. Qed.

Lemma update_balance_found (f : Z -> Z) (id : uuid) (rows : table) (b : Z) :
  rows !! id = Some b ->
  fits_int8 (f b) = true ->
  update_balance f id rows = (Ok tt, <[id := f b]> rows).
Proof. intros H Hf. unfold update_balance. rewrite H, Hf. reflexivity. Qed.

Lemma update_balance_missing (f : Z -> Z) (id : uuid) (rows : table) :
  rows !! id = None -> update_balance f id rows = (Ok tt, rows).
Proof. intros H. unfold update_balance. rewrite H. reflexivity. Qed.

(** A transfer from a source that holds enough: the debit, then the
    credit. *)
Lemma transfer_funds_sufficient
  (frm to : uuid) (amount from_balance : Z) (rows : table) :
  rows !! frm = Some from_balance ->
  amount <= from_balance ->
  transfer_funds frm to amount rows =
    if fits_int8 (from_balance - amount) then
      update_balance (fun balance => balance + amount) to
        (<[frm := from_balance - amount]> rows)
    else (Raise integer_out_of_range, rows).
Proof.
  intros Hfrm Hle. unfold transfer_funds. rewrite Hfrm.
  destruct (Z.ltb_spec from_balance amount); [lia|].
  unfold update_balance at 1. rewrite Hfrm.
  destruct (fits_int8 (from_balance - amount)); reflexivity.
Qed.

Lemma transfer_funds_debits
  (frm to : uuid) (amount from_balance : Z) (rows : table) :
  rows !! frm = Some from_balance ->
  amount <= from_balance ->
  fits_int8 (from_balance - amount) = true ->
  transfer_funds frm to amount rows =
    update_balance (fun balance => balance + amount) to
      (<[frm := from_balance - amount]> rows).
Proof.
  intros Hfrm Hle Hfit. unfold transfer_funds. rewrite Hfrm.
  destruct (Z.ltb_spec from_balance amount); [lia|].
  rewrite (update_balance_found _ frm rows from_balance Hfrm Hfit).
  reflexivity.
Qed.

Lemma transfer_funds_distinct
  (frm to : uuid) (amount from_balance to_balance : Z) (rows : table) :
  frm <> to ->
  rows !! frm = Some from_balance ->
  rows !! to = Some to_balance ->
  amount <= from_balance ->
  fits_int8 (from_balance - amount) = true ->
  fits_int8 (to_balance + amount) = true ->
  transfer_funds frm to amount rows =
    (Ok tt,
     <[to := to_balance + amount]> (<[frm := from_balance - amount]> rows)).
Proof.
  intros Hne Hfrm Hto Hle Hf1 Hf2.
  rewrite (transfer_funds_debits frm to amount from_balance rows Hfrm Hle Hf1).
  apply (update_balance_found (fun balance => balance + amount)); [|exact Hf2].
  rewrite lookup_insert_ne by exact Hne. exact Hto.
Qed.

Lemma transfer_funds_insufficient
  (frm to : uuid) (amount from_balance : Z) (rows : table) :
  rows !! frm = Some from_balance ->
  from_balance < amount ->
  transfer_funds frm to amount rows =
    (Raise (insufficient_funds frm from_balance amount), rows).
Proof.
  intros Hfrm Hlt. unfold transfer_funds. rewrite Hfrm.
  destruct (Z.ltb_spec from_balance amount); [reflexivity|lia].
Qed.

(** What [main] does up to its call of [run_transaction], and after it. *)
Lemma main_runs (id1 id2 : uuid) (w : world) :
  id1 <> id2 ->
  let rows1 := <[id2 := 250]> (<[id1 := 1000]> (accounts (conn w))) in
  let rows2 := <[id2 := 350]> (<[id1 := 900]> rows1) in
  main id1 id2 w =
    (Ok tt,
     mkWorld (mkConn ∅ (open_tx (conn w)) (stored (conn w)) true)
       (S (calls w)) (rng w)
       (trace w ++
        [Balances rows1; TxBegin; Invoke (calls w); TxCommit;
         Balances rows2])).
Proof.
  intros Hne rows1 rows2.
  assert (H1 : rows1 !! id1 = Some 1000).
  { unfold rows1. rewrite lookup_insert_ne by congruence.
    apply lookup_insert_eq. }
  assert (H2 : rows1 !! id2 = Some 250).
  { unfold rows1. apply lookup_insert_eq. }
  assert (Hop : transfer_funds id1 id2 100 rows1 = (Ok tt, rows2)).
  { apply (transfer_funds_distinct id1 id2 100 1000 250);
      [exact Hne|exact H1|exact H2|lia|reflexivity|reflexivity]. }
  unfold main, try_except, bind, create_accounts, execute, print_balances,
    get_conn, set_conn, emit, ret, pop, run_transaction_default, start_query.
  cbn -[run_transaction transfer_funds insert].
  fold rows1.
  assert (Hpos : 1 <= 3) by lia.
  rewrite (run_transaction_returns _ 3 _ Hpos rows2); [|exact Hop].
  rewrite committed_after_first.
  cbn -[insert]. unfold delete_accounts, execute, bind, get_conn, set_conn.
  cbn -[insert]. rewrite <- !app_assoc. reflexivity.
Qed.

(** C7, as the code has it.  [main] takes the identifier of the
    250-account as [toId] and that of the 1000-account as [fromId]: the
    transfer of 100 goes from the 1000-account to the 250-account, and the
    balances printed last are 900 and 350, the other rows being as they
    were.  A transfer whose source holds less than the amount raises the
    insufficient-funds error, and the rows are as before the call. *)
Theorem main_transfers_from_first_account
  (id1 id2 : uuid) (w : world)
  (frm to : uuid) (amount from_balance max_retries : Z) (w2 : world) :
  id1 <> id2 ->
  1 <= max_retries ->
  accounts (conn w2) !! frm = Some from_balance ->
  from_balance < amount ->
  (exists w' rows_before rows_after,
     main id1 id2 w = (Ok tt, w') /\
     trace w' =
       trace w ++
       [Balances rows_before; TxBegin; Invoke (calls w); TxCommit;
        Balances rows_after] /\
     rows_before !! id1 = Some 1000 /\
     rows_before !! id2 = Some 250 /\
     rows_after !! id1 = Some 900 /\
     rows_after !! id2 = Some 350 /\
     (forall id, id <> id1 -> id <> id2 ->
        rows_after !! id = accounts (conn w) !! id)) /\
  (exists w',
     run_transaction (fun _ => transfer_funds frm to amount) max_retries w2 =
       (Raise (insufficient_funds frm from_balance amount), w') /\
     accounts (conn w') = accounts (conn w2) /\
     open_tx (conn w') = open_tx (conn w2) /\
     exn_cls (insufficient_funds frm from_balance amount) = RuntimeError /\
     is_psycopg_Error (insufficient_funds frm from_balance amount) = false /\
     String.prefix "insufficient funds in "
       (exn_msg (insufficient_funds frm from_balance amount)) = true).
Proof.
  intros Hne Hpos Hfrm Hlt. split.
  - eexists. eexists. eexists. split; [apply (main_runs id1 id2 w Hne)|].
    cbn [trace]. split; [reflexivity|].
    split.
    { rewrite lookup_insert_ne by congruence. apply lookup_insert_eq. }
    split; [apply lookup_insert_eq|].
    split.
    { rewrite lookup_insert_ne by congruence. apply lookup_insert_eq. }
    split; [apply lookup_insert_eq|].
    intros id Hn1 Hn2. rewrite !lookup_insert_ne by congruence. reflexivity.
  - eexists. split.
    + apply (run_transaction_other_error _ max_retries w2 Hpos _
               (accounts (conn w2))); [|reflexivity].
      apply transfer_funds_insufficient; assumption.
    + rewrite aborted_after_first. repeat split; reflexivity.
Qed.

Lemma main_transfers_from_first_account_witness :
  (exists w' rows_before rows_after,
     main 1 2 idle_world = (Ok tt, w') /\
     trace w' =
       trace idle_world ++
       [Balances rows_before; TxBegin; Invoke (calls idle_world); TxCommit;
        Balances rows_after] /\
     rows_before !! 1%N = Some 1000 /\
     rows_before !! 2%N = Some 250 /\
     rows_after !! 1%N = Some 900 /\
     rows_after !! 2%N = Some 350 /\
     (forall id, id <> 1%N -> id <> 2%N ->
        rows_after !! id = accounts (conn idle_world) !! id)) /\
  (exists w',
     run_transaction (fun _ => transfer_funds 1 2 100) 3 poor_world =
       (Raise (insufficient_funds 1 50 100), w') /\
     accounts (conn w') = accounts (conn poor_world) /\
     open_tx (conn w') = open_tx (conn poor_world) /\
     exn_cls (insufficient_funds 1 50 100) = RuntimeError /\
     is_psycopg_Error (insufficient_funds 1 50 100) = false /\
     String.prefix "insufficient funds in "
       (exn_msg (insufficient_funds 1 50 100)) = true).
Proof.
  apply (main_transfers_from_first_account 1 2 idle_world 1 2 100 50 3
           poor_world).
  - discriminate.
  - lia.
  - reflexivity.
  - lia.
Defined.

(** The scenario on the identifiers 1 and 2: the 1000-account is debited
    and the 250-account is credited; the balances printed last are 900 and
    350, not 1150 and 150. *)
Lemma main_final_balances_are_900_and_350 :
  exists rows_before rows_after,
    trace (snd (main 1 2 idle_world)) =
      [Balances rows_before; TxBegin; Invoke 0; TxCommit;
       Balances rows_after] /\
    last_balances (trace (snd (main 1 2 idle_world))) None = Some rows_after /\
    rows_before !! 1%N = Some 1000 /\
    rows_before !! 2%N = Some 250 /\
    rows_after !! 1%N = Some 900 /\
    rows_after !! 2%N = Some 350 /\
    ~ (rows_after !! 1%N = Some 1150 /\ rows_after !! 2%N = Some 150).
Proof.
  do 2 eexists. split; [vm_compute; reflexivity|].
  split; [vm_compute; reflexivity|].
  repeat split; try reflexivity.
  intros [H _]. vm_compute in H. discriminate H.
Qed.

(** * Further properties *)

(** ** One pass at most *)

(** X1.  [run_transaction] invokes the unit of work once when
    [max_retries >= 1] and not at all otherwise, whatever the unit of work
    does.  Its events are, in this order: the entry into the block, the
    invocation (if any), at most two log lines, and the exit from the
    block, a commit when the call returns and a rollback when it raises.
    Nothing sleeps, no [conn.rollback()] is carried out, and the random
    generator is not drawn from. *)
Theorem run_transaction_single_pass
  (op : unit_of_work) (max_retries : Z) (w : world) :
  let run := run_transaction op max_retries w in
  calls (snd run) = (if 1 <=? max_retries then S (calls w) else calls w) /\
  rng (snd run) = rng w /\
  exists logs,
    trace (snd run) =
      trace w ++ [TxBegin] ++
      (if 1 <=? max_retries then Invoke (calls w) :: logs else []) ++
      [exit_event (fst run)] /\
    Forall (fun ev => kind_of ev = KDebug) logs /\
    (length logs <= 2)%nat /\
    count KSleep (trace (snd run)) = count KSleep (trace w) /\
    count KRollback (trace (snd run)) = count KRollback (trace w).
Proof.
  intros run. subst run.
  destruct (Z.leb_spec 1 max_retries) as [Hpos|Hneg].
  - destruct (op (calls w) (accounts (conn w))) as [[[]|e] rows] eqn:Hop.
    + rewrite (run_transaction_returns op max_retries w Hpos rows Hop).
      rewrite committed_after_first. cbn [fst snd calls rng trace exit_event].
      split; [reflexivity|]. split; [reflexivity|].
      exists []. split; [reflexivity|]. split; [constructor|].
      split; [cbn; lia|]. rewrite !count_app. cbn. lia.
    + destruct (is_SerializationFailure e) eqn:Hsf.
      * rewrite (run_transaction_conflict op max_retries w Hpos e rows Hop Hsf).
        rewrite aborted_after_first. cbn [fst snd calls rng trace exit_event].
        split; [reflexivity|]. split; [reflexivity|].
        exists [Debug (GotError e)]. split; [reflexivity|].
        split; [repeat constructor|].
        split; [cbn; lia|]. rewrite !count_app. cbn. lia.
      * destruct (is_psycopg_Error e) eqn:Hdb.
        -- rewrite (run_transaction_database_error op max_retries w Hpos e
                      rows Hop Hsf Hdb).
           rewrite aborted_after_first.
           cbn [fst snd calls rng trace exit_event].
           split; [reflexivity|]. split; [reflexivity|].
           exists [Debug (GotError e); Debug NonSerializationBranch].
           split; [reflexivity|]. split; [repeat constructor|].
           split; [cbn; lia|]. rewrite !count_app. cbn. lia.
        -- rewrite (run_transaction_other_error op max_retries w Hpos e rows
                      Hop Hdb).
           rewrite aborted_after_first.
           cbn [fst snd calls rng trace exit_event].
           split; [reflexivity|]. split; [reflexivity|].
           exists []. split; [reflexivity|]. split; [constructor|].
           split; [cbn; lia|]. rewrite !count_app. cbn. lia.
  - rewrite (run_transaction_no_pass op max_retries w) by lia.
    rewrite aborted_entered. cbn [fst snd calls rng trace exit_event].
    split; [reflexivity|]. split; [reflexivity|].
    exists []. split; [reflexivity|]. split; [constructor|].
    split; [cbn; lia|]. rewrite !count_app. cbn. lia.
Qed.

(** ** A bound that is not positive *)

(** X4.  With [max_retries <= 0] the loop has nothing to run through: the
    unit of work is not invoked, nothing sleeps, the session is as it was,
    and the retries-exhausted error carries the bound as it was given. *)
Theorem run_transaction_nonpositive_bound
  (op : unit_of_work) (max_retries : Z) (w : world) :
  max_retries <= 0 ->
  run_transaction op max_retries w =
    (Raise (retries_exhausted max_retries), aborted (entered w)) /\
  trace (aborted (entered w)) = trace w ++ [TxBegin; TxRollback] /\
  calls (aborted (entered w)) = calls w /\
  accounts (conn (aborted (entered w))) = accounts (conn w) /\
  open_tx (conn (aborted (entered w))) = open_tx (conn w) /\
  exn_msg (retries_exhausted max_retries) =
    ("transaction did not succeed after " ++ str_int max_retries ++
     " retries")%string.
Proof.
  intros Hle. split.
  { apply run_transaction_no_pass. exact Hle. }
  rewrite aborted_entered. repeat split; reflexivity.
Qed.

Lemma run_transaction_nonpositive_bound_witness :
  run_transaction contended (-2) idle_world =
    (Raise (retries_exhausted (-2)), aborted (entered idle_world)) /\
  trace (aborted (entered idle_world)) =
    trace idle_world ++ [TxBegin; TxRollback] /\
  calls (aborted (entered idle_world)) = calls idle_world /\
  accounts (conn (aborted (entered idle_world))) = accounts (conn idle_world) /\
  open_tx (conn (aborted (entered idle_world))) = open_tx (conn idle_world) /\
  exn_msg (retries_exhausted (-2)) =
    ("transaction did not succeed after " ++ str_int (-2) ++ " retries")%string.
Proof.
  apply (run_transaction_nonpositive_bound contended (-2) idle_world). lia.
Defined.

(** ** Growth of the backoff *)

(** X5.  The delay does not shrink when the draw grows, nor when the loop
    value grows: for loop values up to 1023 and draws that are not
    negative, a larger loop value and a larger draw give a delay at least
    as long. *)
Theorem backoff_monotone (retry1 retry2 : Z) (r1 r2 : Q) :
  0 <= retry1 <= retry2 ->
  retry2 <= 1023 ->
  (0 <= r1)%Q -> (r1 <= r2)%Q ->
  exists s1 s2,
    sleep_seconds retry1 r1 = Ok s1 /\
    sleep_seconds retry2 r2 = Ok s2 /\
    (0 <= s1)%Q /\ (s1 <= s2)%Q.
Proof.
  intros Hretry Hmax H0 Hr.
  assert (Hb1 : backoff_base retry1 =
                  Ok (fmul (fl (inject_Z (2 ^ retry1))) f0_1)).
  { unfold backoff_base. rewrite float_of_int_pow2 by lia. reflexivity. }
  assert (Hb2 : backoff_base retry2 =
                  Ok (fmul (fl (inject_Z (2 ^ retry2))) f0_1)).
  { unfold backoff_base. rewrite float_of_int_pow2 by lia. reflexivity. }
  set (base1 := fmul (fl (inject_Z (2 ^ retry1))) f0_1) in *.
  set (base2 := fmul (fl (inject_Z (2 ^ retry2))) f0_1) in *.
  assert (Hn1 : (0 <= base1)%Q).
  { apply (backoff_base_nonneg retry1); [lia|exact Hb1]. }
  assert (Hbase : (base1 <= base2)%Q).
  { unfold base1, base2, fmul. apply fl_mono.
    - apply Qmult_le_0_compat; [|apply f0_1_nonneg].
      rewrite fl_pow2 by lia. rewrite pow2_inject by lia.
      apply Qlt_le_weak, pow2_pos.
    - apply Qmult_le_compat_r; [|apply f0_1_nonneg].
      rewrite !fl_pow2 by lia. rewrite !pow2_inject by lia.
      apply pow2_le. lia. }
  assert (Hj1 : (0 <= fadd r1 f0_5)%Q).
  { unfold fadd. apply fl_nonneg. rewrite f0_5_exact. lra. }
  assert (Hj : (fadd r1 f0_5 <= fadd r2 f0_5)%Q).
  { unfold fadd. apply fl_mono; rewrite f0_5_exact; lra. }
  exists (fmul base1 (fadd r1 f0_5)), (fmul base2 (fadd r2 f0_5)).
  split; [unfold sleep_seconds; rewrite Hb1; reflexivity|].
  split; [unfold sleep_seconds; rewrite Hb2; reflexivity|].
  assert (Hprod : (0 <= base1 * fadd r1 f0_5)%Q).
  { apply Qmult_le_0_compat; assumption. }
  split.
  - unfold fmul at 1. apply fl_nonneg. exact Hprod.
  - unfold fmul at 1 2. apply fl_mono; [exact Hprod|].
    apply Qle_trans with (base2 * fadd r1 f0_5)%Q.
    + apply Qmult_le_compat_r; assumption.
    + rewrite !(Qmult_comm base2). apply Qmult_le_compat_r; [exact Hj|].
      apply Qle_trans with base1; assumption.
Qed.

Lemma backoff_monotone_witness :
  exists s1 s2,
    sleep_seconds 1 (1 # 4) = Ok s1 /\
    sleep_seconds 2 (3 # 4) = Ok s2 /\
    (0 <= s1)%Q /\ (s1 <= s2)%Q.
Proof.
  apply (backoff_monotone 1 2 (1 # 4) (3 # 4)).
  - lia.
  - lia.
  - discriminate.
  - discriminate.
Defined.

(** ** All or nothing *)

(** The first invocation, when it does not meet a serialization failure,
    decides the whole call. *)
Lemma run_transaction_first_attempt_ends
  (op : unit_of_work) (max_retries : Z) (w : world)
  (r : result unit) (rows : table) :
  1 <= max_retries ->
  op (calls w) (accounts (conn w)) = (r, rows) ->
  (forall e, r = Raise e -> is_SerializationFailure e = false) ->
  exists w',
    run_transaction op max_retries w = (r, w') /\
    calls w' = S (calls w) /\
    open_tx (conn w') = open_tx (conn w) /\
    accounts (conn w') =
      match r with
      | Ok _ => rows
      | Raise _ => accounts (conn w)
      end /\
    count KSleep (trace w') = count KSleep (trace w) /\
    count KRollback (trace w') = count KRollback (trace w).
Proof.
  intros Hpos Hop Hnot.
  destruct r as [[]|e].
  - eexists. split.
    { apply (run_transaction_returns op max_retries w Hpos rows Hop). }
    rewrite committed_after_first. cbn [conn calls trace accounts open_tx].
    rewrite !count_app. cbn. repeat split; lia.
  - specialize (Hnot e eq_refl).
    destruct (is_psycopg_Error e) eqn:Hdb.
    + eexists. split.
      { apply (run_transaction_database_error op max_retries w Hpos e rows);
          assumption. }
      rewrite aborted_after_first. cbn [conn calls trace accounts open_tx].
      rewrite !count_app. cbn. repeat split; lia.
    + eexists. split.
      { apply (run_transaction_other_error op max_retries w Hpos e rows);
          assumption. }
      rewrite aborted_after_first. cbn [conn calls trace accounts open_tx].
      rewrite !count_app. cbn. repeat split; lia.
Qed.

(** X7.  When the first invocation does not meet a serialization failure,
    [run_transaction] ends after it with the same outcome.  If it returned,
    the session keeps the rows it wrote; if it raised, the rows it wrote
    are discarded and the session sees the rows it saw before the call.
    The transactions that were open around the call are left alone. *)
Theorem run_transaction_all_or_nothing
  (op : unit_of_work) (max_retries : Z) (w : world)
  (r : result unit) (rows : table) :
  1 <= max_retries ->
  op (calls w) (accounts (conn w)) = (r, rows) ->
  (forall e, r = Raise e -> is_SerializationFailure e = false) ->
  exists w',
    run_transaction op max_retries w = (r, w') /\
    calls w' = S (calls w) /\
    open_tx (conn w') = open_tx (conn w) /\
    accounts (conn w') =
      match r with
      | Ok _ => rows
      | Raise _ => accounts (conn w)
      end /\
    count KSleep (trace w') = count KSleep (trace w) /\
    count KRollback (trace w') = count KRollback (trace w).
Proof. apply run_transaction_first_attempt_ends. Qed.

Lemma run_transaction_all_or_nothing_witness :
  exists w',
    run_transaction (writes_then_raises ∅ connection_lost) 3 poor_world =
      (Raise connection_lost, w') /\
    calls w' = S (calls poor_world) /\
    open_tx (conn w') = open_tx (conn poor_world) /\
    accounts (conn w') = accounts (conn poor_world) /\
    count KSleep (trace w') = count KSleep (trace poor_world) /\
    count KRollback (trace w') = count KRollback (trace poor_world).
Proof.
  apply (run_transaction_all_or_nothing (writes_then_raises ∅ connection_lost)
           3 poor_world (Raise connection_lost) ∅).
  - lia.
  - reflexivity.
  - intros e He. injection He as <-. reflexivity.
Defined.

(** ** [transfer_funds] *)

(** X8.  [transfer_funds] raises in three ways only.  With no source row
    it raises a [TypeError], and with a source balance below [amount] the
    insufficient-funds [RuntimeError], both before writing; neither is a
    [psycopg.Error].  With a sufficient balance it raises only when a new
    balance does not fit the [INT] column: the server's out-of-range error,
    a [psycopg.Error] that is no serialization failure, either before any
    write (the debit does not fit) or after the debit was written (the
    credit does not fit).  It returns only if the source row exists, holds
    at least [amount] and the debit fits.  In no case is a row created or
    deleted. *)
Theorem transfer_funds_outcome (frm to : uuid) (amount : Z) (rows : table) :
  (forall e,
     fst (transfer_funds frm to amount rows) = Raise e ->
     (rows !! frm = None /\ exn_cls e = TypeError /\
      is_psycopg_Error e = false /\
      snd (transfer_funds frm to amount rows) = rows) \/
     (exists from_balance,
        rows !! frm = Some from_balance /\ from_balance < amount /\
        e = insufficient_funds frm from_balance amount /\
        is_psycopg_Error e = false /\
        snd (transfer_funds frm to amount rows) = rows) \/
     (exists from_balance,
        rows !! frm = Some from_balance /\ amount <= from_balance /\
        e = integer_out_of_range /\
        is_psycopg_Error e = true /\
        is_SerializationFailure e = false /\
        (fits_int8 (from_balance - amount) = false /\
         snd (transfer_funds frm to amount rows) = rows \/
         fits_int8 (from_balance - amount) = true /\
         snd (transfer_funds frm to amount rows) =
           <[frm := from_balance - amount]> rows))) /\
  (fst (transfer_funds frm to amount rows) = Ok tt ->
   exists from_balance,
     rows !! frm = Some from_balance /\ amount <= from_balance /\
     fits_int8 (from_balance - amount) = true) /\
  dom (snd (transfer_funds frm to amount rows)) = dom rows.
Proof.
  destruct (rows !! frm) as [b|] eqn:Hfrm.
  - destruct (Z.ltb_spec b amount) as [Hlt|Hge].
    + rewrite (transfer_funds_insufficient frm to amount b rows Hfrm Hlt).
      cbn [fst snd].
      split; [|split; [discriminate|reflexivity]].
      intros e He. injection He as <-. right. left. exists b.
      repeat split; auto.
    + rewrite (transfer_funds_sufficient frm to amount b rows Hfrm Hge).
      destruct (fits_int8 (b - amount)) eqn:Hfit.
      * set (rows1 := <[frm := b - amount]> rows).
        assert (Hdom1 : dom rows1 = dom rows).
        { unfold rows1. apply dom_insert_lookup_L. eauto. }
        unfold update_balance.
        destruct (rows1 !! to) as [c|] eqn:Hto.
        -- destruct (fits_int8 (c + amount)) eqn:Hfit2; cbn [fst snd].
           ++ split; [discriminate|]. split; [intros _; exists b; auto|].
              rewrite dom_insert_lookup_L by eauto. exact Hdom1.
           ++ split; [|split; [discriminate|exact Hdom1]].
              intros e He. injection He as <-. right. right. exists b.
              repeat split; auto.
        -- cbn [fst snd]. split; [discriminate|].
           split; [intros _; exists b; auto|exact Hdom1].
      * cbn [fst snd]. split; [|split; [discriminate|reflexivity]].
        intros e He. injection He as <-. right. right. exists b.
        repeat split; auto.
  - unfold transfer_funds. rewrite Hfrm. cbn [fst snd].
    split; [|split; [discriminate|reflexivity]].
    intros e He. injection He as <-. left. repeat split; reflexivity.
Qed.

(** X9.  A transfer between two different existing accounts, the source
    holding at least [amount] and both new balances fitting the [INT]
    column, takes [amount] from the source, adds it to the destination and
    leaves every other row as it was.  The sign of [amount] is not
    checked. *)
Theorem transfer_funds_moves_amount
  (frm to : uuid) (amount from_balance to_balance : Z) (rows : table) :
  frm <> to ->
  rows !! frm = Some from_balance ->
  rows !! to = Some to_balance ->
  amount <= from_balance ->
  int8_min <= from_balance - amount <= int8_max ->
  int8_min <= to_balance + amount <= int8_max ->
  fst (transfer_funds frm to amount rows) = Ok tt /\
  snd (transfer_funds frm to amount rows) !! frm = Some (from_balance - amount) /\
  snd (transfer_funds frm to amount rows) !! to = Some (to_balance + amount) /\
  (forall id, id <> frm -> id <> to ->
     snd (transfer_funds frm to amount rows) !! id = rows !! id).
Proof.
  intros Hne Hfrm Hto Hle Hf1 Hf2.
  apply fits_int8_spec in Hf1, Hf2.
  rewrite (transfer_funds_distinct frm to amount from_balance to_balance rows
             Hne Hfrm Hto Hle Hf1 Hf2).
  cbn [fst snd]. split; [reflexivity|]. split; [|split].
  - rewrite lookup_insert_ne by congruence. apply lookup_insert_eq.
  - apply lookup_insert_eq.
  - intros id H1 H2. rewrite !lookup_insert_ne by congruence. reflexivity.
Qed.

Lemma transfer_funds_moves_amount_witness :
  fst (transfer_funds 1 2 (-30) (accounts (conn poor_world))) = Ok tt /\
  snd (transfer_funds 1 2 (-30) (accounts (conn poor_world))) !! 1%N =
    Some (50 - -30) /\
  snd (transfer_funds 1 2 (-30) (accounts (conn poor_world))) !! 2%N =
    Some (7 + -30) /\
  (forall id, id <> 1%N -> id <> 2%N ->
     snd (transfer_funds 1 2 (-30) (accounts (conn poor_world))) !! id =
       accounts (conn poor_world) !! id).
Proof.
  apply (transfer_funds_moves_amount 1 2 (-30) 50 7 (accounts (conn poor_world))).
  - discriminate.
  - reflexivity.
  - reflexivity.
  - lia.
  - unfold int8_min, int8_max. lia.
  - unfold int8_min, int8_max. lia.
Defined.

Lemma total_delete (rows : table) (id : uuid) (balance : Z) :
  rows !! id = Some balance -> total rows = balance + total (delete id rows).
Proof.
  intros H. unfold total.
  apply (map_fold_delete_L (fun _ b acc => b + acc) 0 id balance rows); [|exact H].
  intros. lia.
Qed.

Lemma total_insert (rows : table) (id : uuid) (balance new_balance : Z) :
  rows !! id = Some balance ->
  total (<[id := new_balance]> rows) = total rows - balance + new_balance.
Proof.
  intros H.
  assert (Ha : <[id := new_balance]> rows !! id = Some new_balance)
    by apply lookup_insert_eq.
  rewrite (total_delete _ _ _ Ha), (total_delete _ _ _ H).
  rewrite delete_insert_eq. lia.
Qed.

(** X10.  A transfer that returns keeps the sum of all balances when
    the destination row exists (also when it is the source row). *)
Theorem transfer_funds_conserves_total
  (frm to : uuid) (amount : Z) (rows : table) :
  fst (transfer_funds frm to amount rows) = Ok tt ->
  is_Some (rows !! to) ->
  total (snd (transfer_funds frm to amount rows)) = total rows.
Proof.
  destruct (rows !! frm) as [b|] eqn:Hfrm;
    [|unfold transfer_funds; rewrite Hfrm; discriminate].
  destruct (Z.ltb_spec b amount) as [Hlt|Hge];
    [rewrite (transfer_funds_insufficient frm to amount b rows Hfrm Hlt);
     discriminate|].
  rewrite (transfer_funds_sufficient frm to amount b rows Hfrm Hge).
  destruct (fits_int8 (b - amount)) eqn:Hfit; [|discriminate].
  set (rows1 := <[frm := b - amount]> rows).
  intros Hok [c Hto].
  assert (H1 : total rows1 = total rows - amount).
  { unfold rows1. rewrite (total_insert rows frm b _ Hfrm). lia. }
  assert (Hto1 : exists c1, rows1 !! to = Some c1).
  { unfold rows1. destruct (decide (frm = to)) as [->|Hne].
    - rewrite lookup_insert_eq. eauto.
    - rewrite lookup_insert_ne by exact Hne. eauto. }
  destruct Hto1 as [c1 Hc1].
  revert Hok. unfold update_balance. rewrite Hc1.
  destruct (fits_int8 (c1 + amount)); [|discriminate].
  intros _. cbn [snd]. rewrite (total_insert rows1 to c1 _ Hc1). lia.
Qed.

Lemma transfer_funds_conserves_total_witness :
  total (snd (transfer_funds 1 2 20 (accounts (conn poor_world)))) =
    total (accounts (conn poor_world)).
Proof.
  apply (transfer_funds_conserves_total 1 2 20 (accounts (conn poor_world))).
  - reflexivity.
  - exists 7. reflexivity.
Defined.

(** X11.  When there is no destination row, a transfer from a source that
    holds at least [amount], the debit fitting the [INT] column, still
    returns: the amount is taken from the source and credited to nobody,
    no row is created, and the sum of all balances drops by [amount]. *)
Theorem transfer_funds_missing_destination
  (frm to : uuid) (amount from_balance : Z) (rows : table) :
  rows !! frm = Some from_balance ->
  amount <= from_balance ->
  int8_min <= from_balance - amount <= int8_max ->
  rows !! to = None ->
  fst (transfer_funds frm to amount rows) = Ok tt /\
  snd (transfer_funds frm to amount rows) !! frm = Some (from_balance - amount) /\
  snd (transfer_funds frm to amount rows) !! to = None /\
  total (snd (transfer_funds frm to amount rows)) = total rows - amount.
Proof.
  intros Hfrm Hle Hfit Hnone. apply fits_int8_spec in Hfit.
  rewrite (transfer_funds_debits frm to amount from_balance rows Hfrm Hle Hfit).
  assert (Hne : frm <> to) by congruence.
  assert (Hto1 : <[frm := from_balance - amount]> rows !! to = None).
  { rewrite lookup_insert_ne by exact Hne. exact Hnone. }
  rewrite (update_balance_missing _ to _ Hto1). cbn [fst snd].
  split; [reflexivity|]. split; [apply lookup_insert_eq|].
  split; [exact Hto1|].
  rewrite (total_insert rows frm from_balance _ Hfrm). lia.
Qed.

Lemma transfer_funds_missing_destination_witness :
  fst (transfer_funds 1 9 20 (accounts (conn poor_world))) = Ok tt /\
  snd (transfer_funds 1 9 20 (accounts (conn poor_world))) !! 1%N =
    Some (50 - 20) /\
  snd (transfer_funds 1 9 20 (accounts (conn poor_world))) !! 9%N = None /\
  total (snd (transfer_funds 1 9 20 (accounts (conn poor_world)))) =
    total (accounts (conn poor_world)) - 20.
Proof.
  apply (transfer_funds_missing_destination 1 9 20 50
           (accounts (conn poor_world))).
  - reflexivity.
  - lia.
  - unfold int8_min, int8_max. lia.
  - reflexivity.
Defined.

(** X12.  A transfer from an account to itself, the account holding at
    least [amount], its balance and the debited balance fitting the [INT]
    column, returns and leaves the table as it was. *)
Theorem transfer_funds_to_self
  (id : uuid) (amount balance : Z) (rows : table) :
  rows !! id = Some balance ->
  amount <= balance ->
  int8_min <= balance - amount <= int8_max ->
  int8_min <= balance <= int8_max ->
  transfer_funds id id amount rows = (Ok tt, rows).
Proof.
  intros Hid Hle Hf1 Hf2. apply fits_int8_spec in Hf1, Hf2.
  rewrite (transfer_funds_debits id id amount balance rows Hid Hle Hf1).
  rewrite (update_balance_found _ id _ (balance - amount));
    [|apply lookup_insert_eq|].
  - f_equal. rewrite insert_insert_eq.
    replace (balance - amount + amount) with balance by lia.
    apply insert_id. exact Hid.
  - replace (balance - amount + amount) with balance by lia. exact Hf2.
Qed.

Lemma transfer_funds_to_self_witness :
  transfer_funds 1 1 20 (accounts (conn poor_world)) =
    (Ok tt, accounts (conn poor_world)).
Proof.
  apply (transfer_funds_to_self 1 20 50 (accounts (conn poor_world))).
  - reflexivity.
  - lia.
  - unfold int8_min, int8_max. lia.
  - unfold int8_min, int8_max. lia.
Defined.

(** X13.  With an amount that is not negative, a table whose balances are
    all non-negative stays so through [transfer_funds], whether it returns
    or raises: the check on the source balance rules out an overdraft. *)
Theorem transfer_funds_keeps_balances_nonnegative
  (frm to : uuid) (amount : Z) (rows : table) :
  0 <= amount ->
  map_Forall (fun _ balance => 0 <= balance) rows ->
  map_Forall (fun _ balance => 0 <= balance)
    (snd (transfer_funds frm to amount rows)).
Proof.
  intros Hamount Hrows.
  destruct (rows !! frm) as [b|] eqn:Hfrm;
    [|unfold transfer_funds; rewrite Hfrm; exact Hrows].
  destruct (Z.ltb_spec b amount) as [Hlt|Hge];
    [rewrite (transfer_funds_insufficient frm to amount b rows Hfrm Hlt);
     exact Hrows|].
  rewrite (transfer_funds_sufficient frm to amount b rows Hfrm Hge).
  destruct (fits_int8 (b - amount)); [|exact Hrows].
  set (rows1 := <[frm := b - amount]> rows).
  assert (H1 : map_Forall (fun _ balance => 0 <= balance) rows1).
  { intros j x Hj. unfold rows1 in Hj.
    apply lookup_insert_Some in Hj as [[_ <-]|[_ Hj]]; [lia|].
    exact (Hrows j x Hj). }
  unfold update_balance.
  destruct (rows1 !! to) as [c|] eqn:Hto; [|exact H1].
  destruct (fits_int8 (c + amount)); [|exact H1].
  cbn [snd]. intros j x Hj.
  apply lookup_insert_Some in Hj as [[_ <-]|[_ Hj]].
  - pose proof (H1 to c Hto). cbn in *. lia.
  - exact (H1 j x Hj).
Qed.

Lemma transfer_funds_keeps_balances_nonnegative_witness :
  map_Forall (fun _ balance => 0 <= balance)
    (snd (transfer_funds 1 2 20 (accounts (conn poor_world)))).
Proof.
  apply (transfer_funds_keeps_balances_nonnegative 1 2 20
           (accounts (conn poor_world))).
  - lia.
  - intros j x Hj.
    destruct (decide (j = 2%N)) as [->|H2].
    + vm_compute in Hj. injection Hj as <-. lia.
    + destruct (decide (j = 1%N)) as [->|H1].
      * vm_compute in Hj. injection Hj as <-. lia.
      * cbn in Hj. rewrite !lookup_insert_ne in Hj by congruence.
        rewrite lookup_empty in Hj. discriminate Hj.
Defined.

(** ** Setting up and clearing the table *)

(** X15.  [create_accounts] returns the two identifiers in the order they
    were drawn and leaves the first with balance 1000 and the second with
    250, whatever these rows held before; the other rows and the trace are
    untouched, and running it again on the same identifiers changes
    nothing more. *)
Theorem create_accounts_rows (id1 id2 : uuid) (w : world) :
  id1 <> id2 ->
  exists w',
    create_accounts id1 id2 w = (Ok [id1; id2], w') /\
    accounts (conn w') !! id1 = Some 1000 /\
    accounts (conn w') !! id2 = Some 250 /\
    (forall id, id <> id1 -> id <> id2 ->
       accounts (conn w') !! id = accounts (conn w) !! id) /\
    open_tx (conn w') = open_tx (conn w) /\
    trace w' = trace w /\
    calls w' = calls w /\
    create_accounts id1 id2 w' = (Ok [id1; id2], w').
Proof.
  intros Hne. eexists. split; [reflexivity|].
  cbn [conn accounts open_tx trace calls].
  split; [rewrite lookup_insert_ne by congruence; apply lookup_insert_eq|].
  split; [apply lookup_insert_eq|].
  split.
  { intros id H1 H2. rewrite !lookup_insert_ne by congruence. reflexivity. }
  split; [reflexivity|]. split; [reflexivity|]. split; [reflexivity|].
  unfold create_accounts, execute, bind, get_conn, set_conn, ret.
  cbn [conn accounts open_tx stored in_transaction trace calls rng].
  do 3 f_equal. apply map_eq. intros j.
  destruct (decide (id2 = j)) as [<-|H2].
  - rewrite !lookup_insert_eq. reflexivity.
  - rewrite (lookup_insert_ne _ id2 j) by exact H2.
    destruct (decide (id1 = j)) as [<-|H1].
    + rewrite lookup_insert_eq.
      rewrite (lookup_insert_ne _ id2 id1) by exact H2.
      rewrite lookup_insert_eq. reflexivity.
    + rewrite !lookup_insert_ne by assumption. reflexivity.
Qed.

Lemma create_accounts_rows_witness :
  exists w',
    create_accounts 1 2 poor_world = (Ok [1%N; 2%N], w') /\
    accounts (conn w') !! 1%N = Some 1000 /\
    accounts (conn w') !! 2%N = Some 250 /\
    (forall id, id <> 1%N -> id <> 2%N ->
       accounts (conn w') !! id = accounts (conn poor_world) !! id) /\
    open_tx (conn w') = open_tx (conn poor_world) /\
    trace w' = trace poor_world /\
    calls w' = calls poor_world /\
    create_accounts 1 2 w' = (Ok [1%N; 2%N], w').
Proof.
  apply (create_accounts_rows 1 2 poor_world). discriminate.
Defined.

(** X16.  [main] never commits.  With two distinct identifiers it returns
    after one invocation of the transfer, without sleeping, without drawing
    from the generator and without logging a fatal error; the session then
    sees an empty [accounts] table, its transaction is still in progress,
    and the stored rows are those of before the run: neither the accounts
    created, nor the transfer, nor the deletion is stored. *)
Theorem main_never_commits (id1 id2 : uuid) (w : world) :
  id1 <> id2 ->
  exists w',
    main id1 id2 w = (Ok tt, w') /\
    accounts (conn w') = ∅ /\
    stored (conn w') = stored (conn w) /\
    in_transaction (conn w') = true /\
    open_tx (conn w') = open_tx (conn w) /\
    calls w' = S (calls w) /\
    rng w' = rng w /\
    count KCommit (trace w') = S (count KCommit (trace w)) /\
    count KFatal (trace w') = count KFatal (trace w) /\
    count KSleep (trace w') = count KSleep (trace w) /\
    count KBalances (trace w') = (count KBalances (trace w) + 2)%nat.
Proof.
  intros Hne. eexists. split; [apply (main_runs id1 id2 w Hne)|].
  cbn [conn accounts stored in_transaction open_tx calls rng trace].
  rewrite !count_app. cbn. repeat split; lia.
Qed.

Lemma main_never_commits_witness :
  exists w',
    main 1 2 poor_world = (Ok tt, w') /\
    accounts (conn w') = ∅ /\
    stored (conn w') = stored (conn poor_world) /\
    in_transaction (conn w') = true /\
    open_tx (conn w') = open_tx (conn poor_world) /\
    calls w' = S (calls poor_world) /\
    rng w' = rng poor_world /\
    count KCommit (trace w') = S (count KCommit (trace poor_world)) /\
    count KFatal (trace w') = count KFatal (trace poor_world) /\
    count KSleep (trace w') = count KSleep (trace poor_world) /\
    count KBalances (trace w') = (count KBalances (trace poor_world) + 2)%nat.
Proof.
  apply (main_never_commits 1 2 poor_world). discriminate.
Defined.

(** ** The largest loop value *)

(** X17.  From loop value 1024 on, [2**retry] is too large for a float:
    the delay of line 95 raises [OverflowError] whatever the draw is, and a
    handler that has carried out its [conn.rollback()] raises it before
    drawing from the generator and without sleeping. *)
Theorem backoff_overflow
  (retry : Z) (r : Q) (op : unit_of_work) (w : world) (e : exn)
  (rows : table) :
  1024 <= retry ->
  op (calls w) (accounts (conn w)) = (Raise e, rows) ->
  is_SerializationFailure e = true ->
  open_tx (conn w) = [] ->
  sleep_seconds retry r = Raise int_too_large /\
  exn_cls int_too_large = OverflowError /\
  exists w',
    attempt op retry w = (Raise int_too_large, w') /\
    rng w' = rng w /\
    trace w' =
      trace w ++
      [Invoke (calls w); Debug (GotError e); Rollback;
       Debug SerializationBranch].
Proof.
  intros Hr Hop Hsf Hopen.
  assert (Hbase : backoff_base retry = Raise int_too_large).
  { unfold backoff_base. rewrite float_of_int_pow2_overflow by exact Hr.
    reflexivity. }
  split; [unfold sleep_seconds; rewrite Hbase; reflexivity|].
  split; [reflexivity|].
  unfold attempt, try_except, bind, invoke, ret, rollback, get_conn, set_conn,
    debug, sleep, emit, raise, lift, random.
  rewrite Hop, Hsf. cbn. rewrite Hopen. cbn. rewrite Hbase.
  eexists. split; [reflexivity|]. cbn. split; [reflexivity|].
  rewrite <- !app_assoc. reflexivity.
Qed.

Lemma backoff_overflow_witness :
  sleep_seconds 1024 (1 # 4) = Raise int_too_large /\
  exn_cls int_too_large = OverflowError /\
  exists w',
    attempt contended 1024 idle_world = (Raise int_too_large, w') /\
    rng w' = rng idle_world /\
    trace w' =
      trace idle_world ++
      [Invoke (calls idle_world); Debug (GotError restart_transaction);
       Rollback; Debug SerializationBranch].
Proof.
  apply (backoff_overflow 1024 (1 # 4) contended idle_world
           restart_transaction ∅).
  - lia.
  - reflexivity.
  - reflexivity.
  - reflexivity.
Defined.
